(** * LineClamp: a shallow embedding of [src/LineClamp.js]

    The text-fit controller reduces the font size of an element, or trims its
    text, until the rendered text fits a number of lines.  The controller is
    embedded method by method as functions on a record of its fields; the
    browser (layout, CSS object model, DOM serialisation) is the [Host] the
    controller runs against and is a parameter of every statement.

    Conventions of the embedding:
    - a method takes the instance and returns the instance it leaves, next to
      its result if it has one; a method that may loop for ever takes a number
      of rounds and returns [None] when they are used up;
    - heights are natural numbers of pixels ([offsetHeight] is an integer),
      font sizes are whole numbers of pixels up to 2^53, where a binary64
      counter counts down exactly, [maxLines] is a natural number; line
      heights and quotients are binary64 numbers, see [Js.Number];
    - what the program reads from [innerHTML] and [style.cssText] is a
      serialisation that is written back unchanged; it is kept symbolic and
      only the text the program concatenates to it is a string;
    - the observer and the resize listener are two flags; the events
      dispatched on the element are a log.  No handler runs during a call:
      the program is single-threaded and observer callbacks are delivered
      after the call returns. *)

From Stdlib Require Import ZArith Ascii String Lia SpecFloat.
From stdpp Require Import gmap strings pretty.

Local Open Scope Z_scope.
Local Open Scope string_scope.
Local Open Scope list_scope.

(** ** JavaScript built-ins used by the controller *)

Module Js.

(** Characters are code units below 256; [\s] on that range is TAB, LF, VT,
    FF, CR, SPACE and NO-BREAK SPACE. *)
Definition isWhiteSpace (c : ascii) : bool :=
  let n := N_of_ascii c in
  (((9 <=? n) && (n <=? 13)) || (n =? 32) || (n =? 160))%N.

Definition consHead (c : ascii) (l : list string) : list string :=
  match l with
  | [] => [String c ""]
  | w :: ws => String c w :: ws
  end.

(** [s.split(/\s+/)]: the pieces of [s] between maximal runs of white space.
    [inRun] tells that the previous character belonged to a separator. *)
Fixpoint splitFrom (inRun : bool) (s : string) : list string :=
  match s with
  | "" => [""]
  | String c r =>
      if isWhiteSpace c
      then (if inRun then splitFrom true r else "" :: splitFrom true r)
      else consHead c (splitFrom false r)
  end.

Definition splitWhitespace (s : string) : list string := splitFrom false s.

(** [a.join(sep)] *)
Definition join (sep : string) (a : list string) : string := String.concat sep a.

(** String coercion of an array: [String(a)] is [a.join(',')]. *)
Definition arrayToString (a : list string) : string := join "," a.

(** [a.slice(0, i)] *)
Definition sliceTo {A} (i : nat) (a : list A) : list A := firstn i a.

(** [s.slice(0, -1)]: [s] without its last character; the empty string stays
    empty. *)
Fixpoint dropLast (s : string) : string :=
  match s with
  | "" => ""
  | String c r => match r with
                  | "" => ""
                  | String _ _ => String c (dropLast r)
                  end
  end.

(** [s.repeat(n)] *)
Fixpoint repeat (s : string) (n : nat) : string :=
  match n with
  | O => ""
  | S k => s +:+ repeat s k
  end.

(** A JavaScript number is an IEEE 754 binary64 value: [spec_float] with a
    mantissa of 53 bits and infinities at exponent 1024.  Division and
    comparison are the library's, rounding to nearest, ties to even. *)
Abbreviation Number := spec_float.

Definition NaN : Number := S754_nan.

(** The number an integer denotes (the nearest binary64 value). *)
Definition ofZ (z : Z) : Number := binary_normalize 53 1024 z 0 false.
Definition ofN (n : N) : Number := ofZ (Z.of_N n).
Definition ofNat (n : nat) : Number := ofZ (Z.of_nat n).

(** [a / b] *)
Definition div (a b : Number) : Number := SFdiv 53 1024 a b.

(** [a > b]: false as soon as one side is not a number. *)
Definition gt (a b : Number) : bool := SFltb b a.

(** Truthiness of a property that is [undefined] until first assigned. *)
Definition truthy (v : option bool) : bool := default false v.

End Js.

(** ** The rendering surface *)

Module Dom.

(** An inline declaration block: property name to value. *)
Abbreviation Style := (gmap string string).

(** Child nodes, by the write that produced them. *)
Inductive Content :=
| TextContent (text : string)       (* [el.textContent = text] *)
| InnerHTML (markup : string).      (* [el.innerHTML = markup] *)

(** The value of [el.innerHTML]: the serialisation of the current children,
    kept symbolic, or a string built by the program.  Writing back what was
    read restores the children. *)
Inductive Html :=
| Serialized (c : Content)
| Markup (s : string).

(** The value of [el.style.cssText]: the serialisation of a declaration
    block, kept symbolic, followed by the text the program concatenated. *)
Record CssText := mkCssText { block : Style; appended : string }.

(** What the browser decides. *)
Record Host := mkHost {
  layout : Content -> Style -> N;         (* [offsetHeight] of the element *)
  markupText : string -> string;          (* [textContent] of parsed markup *)
  computedFontSize : Style -> Z;          (* [parseInt(getComputedStyle(el).fontSize, 10)] *)
}.

Record Element := mkElement {
  host : Host;
  content : Content;
  style : Style;
  dispatched : list string;               (* types of the events dispatched, oldest first *)
}.

Definition withContent (c : Content) (el : Element) : Element :=
  mkElement (host el) c (style el) (dispatched el).

Definition withStyle (s : Style) (el : Element) : Element :=
  mkElement (host el) (content el) s (dispatched el).

Definition offsetHeight (el : Element) : N :=
  layout (host el) (content el) (style el).

Definition textContent (el : Element) : string :=
  match content el with
  | TextContent t => t
  | InnerHTML m => markupText (host el) m
  end.

Definition setTextContent (t : string) (el : Element) : Element :=
  withContent (TextContent t) el.

Definition innerHTML (el : Element) : Html := Serialized (content el).

Definition setInnerHTML (h : Html) (el : Element) : Element :=
  match h with
  | Serialized c => withContent c el
  | Markup s => withContent (InnerHTML s) el
  end.

(** *** Parsing of the text appended to a declaration block *)

Fixpoint splitOn (sep : ascii) (s : string) : list string :=
  match s with
  | "" => [""]
  | String c r =>
      if Ascii.eqb c sep then "" :: splitOn sep r
      else Js.consHead c (splitOn sep r)
  end.

Fixpoint breakAt (sep : ascii) (s : string) : option (string * string) :=
  match s with
  | "" => None
  | String c r =>
      if Ascii.eqb c sep then Some ("", r)
      else match breakAt sep r with
           | Some (a, b) => Some (String c a, b)
           | None => None
           end
  end.

Fixpoint trimLeft (s : string) : string :=
  match s with
  | "" => ""
  | String c r => if Js.isWhiteSpace c then trimLeft r else s
  end.

Fixpoint trimRight (s : string) : string :=
  match s with
  | "" => ""
  | String c r =>
      match trimRight r with
      | "" => if Js.isWhiteSpace c then "" else String c ""
      | r' => String c r'
      end
  end.

Definition trim (s : string) : string := trimRight (trimLeft s).

(** One [name: value] declaration; text without a colon, or with an empty
    name or value, is not a declaration and is dropped by the parser.
    (A browser also drops names and values it does not know.) *)
Definition parseDeclaration (chunk : string) : option (string * string) :=
  match breakAt ":" chunk with
  | Some (name, value) =>
      match trim name, trim value with
      | "", _ | _, "" => None
      | n, v => Some (n, v)
      end
  | None => None
  end.

Definition applyDeclaration (s : Style) (chunk : string) : Style :=
  match parseDeclaration chunk with
  | Some (n, v) => <[n := v]> s
  | None => s
  end.

Definition parseCssText (t : CssText) : Style :=
  fold_left applyDeclaration (splitOn ";" (appended t)) (block t).

Definition cssText (el : Element) : CssText := mkCssText (style el) "".

Definition cssAppend (t : CssText) (s : string) : CssText :=
  mkCssText (block t) (appended t +:+ s).

Definition setCssText (t : CssText) (el : Element) : Element :=
  withStyle (parseCssText t) el.

(** A value with a minus sign in front: a negative length. *)
Definition negativeLength (v : string) : bool :=
  match v with
  | "" => false
  | String c _ => Ascii.eqb c "-"
  end.

(** [el.style.fontSize = v]: the empty string removes the declaration; a
    negative length is not a font size, and the assignment is ignored.  (The
    controller assigns the empty string and [<integer>px], nothing else.) *)
Definition setFontSize (v : string) (el : Element) : Element :=
  match v with
  | "" => withStyle (delete "font-size" (style el)) el
  | _ => if negativeLength v then el
         else withStyle (<["font-size" := v]> (style el)) el
  end.

Definition removeProperty (p : string) (el : Element) : Element :=
  withStyle (delete p (style el)) el.

Definition dispatchEvent (type : string) (el : Element) : Element :=
  mkElement (host el) (content el) (style el) (dispatched el ++ [type]).

End Dom.

Import Dom.

(** ** The controller *)

(** The options object of the constructor; [None] is an absent key. *)
Record LineClampInit := mkInit {
  initMaxLines : option nat;
  initUseSoftClamp : option bool;
  initStrict : option bool;
  initBasisLineHeight : option Js.Number;
  initMinFontSize : option Z;
  initMaxFontSize : option Z;
}.

Record LineClamp := mkLineClamp {
  originalWords : list string;
  observing : bool;              (* [this.observer] is connected to the element *)
  resizeListening : bool;        (* [this.updateHandler] listens to window resize *)
  _element : Element;
  _watching : option bool;       (* [None] until the first watch() or unwatch() *)
  maxLines : nat;
  useSoftClamp : bool;
  strict : bool;
  basisLineHeight : Js.Number;
  minFontSize : Z;
  maxFontSize : Z;
}.

Record TextDimensions := mkDimensions {
  lineHeight : Js.Number;
  innerHeight : Js.Number;
}.

Definition withElement (el : Element) (lc : LineClamp) : LineClamp :=
  mkLineClamp (originalWords lc) (observing lc) (resizeListening lc) el
    (_watching lc) (maxLines lc) (useSoftClamp lc) (strict lc)
    (basisLineHeight lc) (minFontSize lc) (maxFontSize lc).

Definition onElement (f : Element -> Element) (lc : LineClamp) : LineClamp :=
  withElement (f (_element lc)) lc.

Definition withSubscription (w : bool) (lc : LineClamp) : LineClamp :=
  mkLineClamp (originalWords lc) w w (_element lc)
    (Some w) (maxLines lc) (useSoftClamp lc) (strict lc)
    (basisLineHeight lc) (minFontSize lc) (maxFontSize lc).

Definition triggerEvent (type : string) (instance : LineClamp) : LineClamp :=
  onElement (dispatchEvent type) instance.

(** [unwatch()]: disconnect the observer, remove the resize listener. *)
Definition unwatch (this : LineClamp) : LineClamp := withSubscription false this.

(** The part of [watch(doInitialClamp)] after the initial clamp: subscribe
    unless already watching.  It is all of [watch(false)]. *)
Definition watchOnly (this : LineClamp) : LineClamp :=
  if negb (Js.truthy (_watching this)) then withSubscription true this else this.

Definition stylesToZeroOut : list string :=
  [ "min-height"; "border-top-width"; "border-bottom-width";
    "padding-top-width"; "padding-bottom-width" ].

(** [stylesToZeroOut.map(rule => `${rule}:0!important`).join(';')] *)
Definition newStyles : string :=
  Js.join ";" (map (fun rule => rule +:+ ":0!important") stylesToZeroOut).

Definition _whileMeasuring {A} (callback : Element -> A * Element)
    (this : LineClamp) : A * LineClamp :=
  let previouslyWatching := _watching this in
  let oldStyles := cssText (_element this) in
  let newStyles := newStyles in              (* bound, and not used below *)
  let this := unwatch this in
  (* Append, don't replace *)
  let this :=
    onElement (fun el =>
      setCssText (cssAppend (cssText el) (";" +:+ Js.arrayToString stylesToZeroOut)) el)
      this in
  let '(returnValue, el) := callback (_element this) in
  let this := withElement (setCssText oldStyles el) this in
  let this := if Js.truthy previouslyWatching then watchOnly this else this in
  (returnValue, this).

Definition calibration (n : nat) : Html := Markup ("&nbsp;" +:+ Js.repeat "<br>" n).

Definition textDimensions (this : LineClamp) : TextDimensions * LineClamp :=
  _whileMeasuring (fun element =>
    let originalHtml := innerHTML element in
    let innerHeight := Js.ofN (offsetHeight element) in
    let element := setInnerHTML (calibration (maxLines this)) element in
    let lineHeight := Js.div (Js.ofN (offsetHeight element)) (Js.ofNat (maxLines this)) in
    let element := setInnerHTML originalHtml element in
    (mkDimensions lineHeight innerHeight, element)) this.

Definition currentLineHeight (this : LineClamp) : Js.Number * LineClamp :=
  let '(d, this) := textDimensions this in (lineHeight d, this).

Definition shouldClamp (this : LineClamp) : bool * LineClamp :=
  let '(d, this) := textDimensions this in
  let comparisonLineHeight :=
    if strict this then lineHeight d else basisLineHeight this in
  (Js.gt (Js.div (innerHeight d) comparisonLineHeight) (Js.ofNat (maxLines this)), this).

(** The [do ... while (this.shouldClamp())] loop of [hardClamp].  Nothing in
    the loop bounds the number of rounds, so the embedding counts them:
    [None] when [fuel] rounds were not enough. *)
Fixpoint trimCharacters (fuel : nat) (currentText : string) (this : LineClamp)
    : option LineClamp :=
  match fuel with
  | O => None
  | S fuel' =>
      let currentText := Js.dropLast currentText in
      let this := onElement (setInnerHTML (Markup (currentText +:+ "&hellip;"))) this in
      let '(again, this) := shouldClamp this in
      if again then trimCharacters fuel' currentText this else Some this
  end.

(** The [for (let i = 0, len = ...; i < len; ++i)] loop of [hardClamp], from
    index [i] with [todo = len - i] indices left. *)
Fixpoint trimWords (fuel : nat) (todo i : nat) (this : LineClamp)
    : option LineClamp :=
  match todo with
  | O => Some this
  | S todo' =>
      let currentText := Js.join " " (Js.sliceTo i (originalWords this)) in
      let this := onElement (setTextContent currentText) this in
      let '(over, this) := shouldClamp this in
      if over then trimCharacters fuel currentText this    (* ... break *)
      else trimWords fuel todo' (S i) this
  end.

Definition hardClamp (fuel : nat) (this : LineClamp) : option LineClamp :=
  let '(over, this) := shouldClamp this in
  this ←
    (if over then
       this ← trimWords fuel (length (originalWords this)) 0 this;
       Some (triggerEvent "lineclamp.clamp" (triggerEvent "lineclamp.hardClamp" this))
     else Some this);
  Some (onElement (removeProperty "min-height") this).

(** The [for (let i = this.maxFontSize; i >= this.minFontSize; --i)] loop of
    [softClamp]; the result is the final value of [done].  [todo] bounds the
    rounds; [softClamp] passes the size of the range, which is never
    exceeded.  Font sizes are integers of pixels below 2^53, the range in
    which decrementing a binary64 number is exact. *)
Fixpoint shrinkFont (todo : nat) (i : Z) (this : LineClamp) : bool * LineClamp :=
  match todo with
  | O => (false, this)
  | S todo' =>
      if i >=? minFontSize this then
        let this := onElement (setFontSize (pretty i +:+ "px")) this in
        let '(over, this) := shouldClamp this in
        if negb over then (true, this)                      (* done = true; break *)
        else shrinkFont todo' (i - 1) this
      else (false, this)
  end.

Definition softClamp (fuel : nat) (this : LineClamp) : option LineClamp :=
  let this := onElement (setFontSize "") this in
  let '(over, this) := shouldClamp this in
  if over then
    let '(done, this) :=
      shrinkFont (Z.to_nat (maxFontSize this - minFontSize this + 1))
        (maxFontSize this) this in
    let this := triggerEvent "lineclamp.softClamp" this in
    if negb done then hardClamp fuel this
    else Some (triggerEvent "lineclamp.clamp" this)
  else Some this.

Definition clamp (fuel : nat) (this : LineClamp) : option LineClamp :=
  if (0 <? offsetHeight (_element this))%N then
    let previouslyWatching := _watching this in
    (* Ignore internally started mutations, lest we recurse into oblivion *)
    let this := unwatch this in
    this ← (if useSoftClamp this then softClamp fuel this else hardClamp fuel this);
    (* Resume observation if previously watching *)
    Some (if Js.truthy previouslyWatching then watchOnly this else this)
  else Some this.

Definition watch (fuel : nat) (doInitialClamp : bool) (this : LineClamp)
    : option LineClamp :=
  this ← (if doInitialClamp then clamp fuel this else Some this);
  Some (watchOnly this).

(** [new LineClamp(element, options)].  Only [maxLines] is assigned when the
    constructor measures the line height; the other fields are not read by the
    measurement. *)
Definition construct (element : Element) (options : LineClampInit) : LineClamp :=
  let maxLines := default 1%nat (initMaxLines options) in
  let useSoftClamp := default true (initUseSoftClamp options) in
  let strict := default true (initStrict options) in
  let minFontSize := default 1 (initMinFontSize options) in
  let words := Js.splitWhitespace (textContent element) in
  let this :=
    mkLineClamp words false false element None maxLines
      useSoftClamp strict Js.NaN minFontSize 0 in
  let styleFontSize := computedFontSize (host element) (style element) in
  let '(basisLineHeight, this) :=
    match initBasisLineHeight options with
    | None => currentLineHeight this
    | Some v => (v, this)
    end in
  let maxFontSize := default styleFontSize (initMaxFontSize options) in
  mkLineClamp (originalWords this) (observing this) (resizeListening this)
    (_element this) (_watching this) (maxLines) useSoftClamp strict
    basisLineHeight minFontSize maxFontSize.

(** ** A host to run the controller on

    A fixed-pitch layout: every glyph is as wide and as tall as the font size,
    text breaks between any two glyphs, the box is [width] pixels wide, and an
    inline [min-height] is honoured.  The font size is the inline one when it
    reads as [<digits>px] and the style sheet's otherwise. *)

Module Monospace.

Definition digit (c : ascii) : option N :=
  let n := N_of_ascii c in
  if ((48 <=? n) && (n <=? 57))%N then Some (n - 48)%N else None.

Fixpoint readPx (acc : option N) (s : string) : option N :=
  match s with
  | "" => None
  | String c r =>
      match digit c with
      | Some d => readPx (Some (10 * default 0 acc + d)%N) r
      | None => if String.eqb s "px" then acc else None
      end
  end.

Definition pixels (fallback : N) (v : option string) : N :=
  default fallback (v ≫= readPx None).

Fixpoint startsWith (p s : string) : bool :=
  match p, s with
  | "", _ => true
  | String a p', String b s' => Ascii.eqb a b && startsWith p' s'
  | _, "" => false
  end.

(** Number of lines of the calibration fragment and of anything else. *)
Definition glyphs (c : Content) : N :=
  match c with
  | TextContent t => N.of_nat (String.length t)
  | InnerHTML m => N.of_nat (String.length m - 7)   (* text and one ellipsis glyph *)
  end.

Definition lines (perLine : N) (c : Content) : N :=
  match c with
  | InnerHTML m =>
      if startsWith "&nbsp;" m
      then N.max 1 (N.of_nat ((String.length m - 6) / 4))
      else (glyphs c + perLine - 1) / perLine
  | _ => (glyphs c + perLine - 1) / perLine
  end%N.

Definition layout (width sheetFontSize : N) (c : Content) (s : Style) : N :=
  let f := pixels sheetFontSize (s !! "font-size") in
  let perLine := N.max 1 (width / f) in
  N.max (lines perLine c * f) (pixels 0 (s !! "min-height")).

Definition host (width sheetFontSize : N) : Host :=
  mkHost (layout width sheetFontSize) (fun m => m)
    (fun s => Z.of_N (pixels sheetFontSize (s !! "font-size"))).

Definition element (width sheetFontSize : N) (text : string) (s : Style) : Element :=
  mkElement (host width sheetFontSize) (TextContent text) s [].

End Monospace.

Definition noOptions : LineClampInit := mkInit None None None None None None.

(** ** What the measurement computes

    The overflow test as a function of what is rendered: the children [c]
    and the inline style [s] on host [h], for [n] lines. *)

Definition overflowsWith (h : Host) (n : nat) (strictly : bool)
    (basis : Js.Number) (c : Content) (s : Style) : bool :=
  let innerHeight := Js.ofN (layout h c s) in
  let lineHeight :=
    Js.div (Js.ofN (layout h (InnerHTML ("&nbsp;" +:+ Js.repeat "<br>" n)) s))
           (Js.ofNat n) in
  Js.gt (Js.div innerHeight (if strictly then lineHeight else basis)) (Js.ofNat n).

Definition overflowsIn (this : LineClamp) (c : Content) (s : Style) : bool :=
  overflowsWith (host (_element this)) (maxLines this) (strict this)
    (basisLineHeight this) c s.

Definition overflows (this : LineClamp) : bool :=
  overflowsIn this (content (_element this)) (style (_element this)).

(** The subscription state after a measurement: on iff it was on. *)
Definition settled (this : LineClamp) : LineClamp :=
  withSubscription (Js.truthy (_watching this)) this.

(** The inline style with font size [i] pixels, as [softClamp] writes it. *)
Definition sized (i : Z) (s : Style) : Style := <["font-size" := pretty i +:+ "px"]> s.

Arguments sized : simpl never.

(** The element as [softClamp] first tests it: inline font size cleared. *)
Definition fontReset (this : LineClamp) : LineClamp := onElement (setFontSize "") this.

(** The overflow test with the inline font size cleared and then assigned
    [i] pixels, which is how [softClamp] comes to candidate [i]. *)
Definition overflowsAtSize (this : LineClamp) (i : Z) : bool :=
  overflows (onElement (setFontSize (pretty i +:+ "px")) (fontReset this)).

Definition visible (this : LineClamp) : bool := (0 <? offsetHeight (_element this))%N.

(** The events a call added to the log. *)
Definition emitted (before after : LineClamp) : list string :=
  drop (length (dispatched (_element before))) (dispatched (_element after)).

Definition fired (type : string) (before after : LineClamp) : nat :=
  length (filter (fun t => t = type) (emitted before after)).

(** ** Configurations the statements are run on *)

Module Run.

Definition soft : string := "lineclamp.softClamp".
Definition hard : string := "lineclamp.hardClamp".
Definition completed : string := "lineclamp.clamp".

(** Two words in a box four glyphs wide, hard clamp only: the full text takes
    two lines, the first word alone takes one. *)
Definition twoWords : LineClamp :=
  construct (Monospace.element 80 20 "ab cd" ∅)
    (mkInit None (Some false) None None None None).

(** The same box measured against a basis line height of 10 pixels while a
    rendered line is 20 pixels tall (not strict), hard clamp only. *)
Definition tallLine : LineClamp :=
  construct (Monospace.element 80 20 "ab cd" ∅)
    (mkInit None (Some false) (Some false) (Some (Js.ofN 10)) None None).

(** Three words, font sizes 20 down to 19: no size fits, hard clamp follows. *)
Definition cascade : LineClamp :=
  construct (Monospace.element 80 20 "ab cd ef" ∅)
    (mkInit None None None None (Some 19) None).

Definition cascadeWatched : LineClamp := watchOnly cascade.

(** Five glyphs in a box three glyphs wide at the style sheet's 20 pixels;
    sizes 12, 11 and 10 all fit it on one line. *)
Definition shrinkable : LineClamp :=
  construct (Monospace.element 60 20 "abcde" ∅)
    (mkInit None None None None (Some 10) (Some 12)).

(** The same element once soft clamp has left it at 12 pixels; [maxFontSize]
    is read from the computed style. *)
Definition shrunk : LineClamp :=
  construct (Monospace.element 60 20 "abcde" {["font-size" := "12px"]})
    (mkInit None None None None (Some 10) None).

(** Text that fits at the style sheet's size, with a smaller inline size. *)
Definition inlineSmall : LineClamp :=
  construct (Monospace.element 80 20 "ab" {["font-size" := "10px"]}) noOptions.

(** Text that fits, nothing inline. *)
Definition fitting : LineClamp :=
  construct (Monospace.element 80 20 "ab" ∅) noOptions.

(** One line of text in an element with an inline minimum height. *)
Definition reserved : LineClamp :=
  construct (Monospace.element 80 20 "ab" {["min-height" := "100px"]}) noOptions.

(** An empty font-size range: minimum 5 above maximum 3. *)
Definition emptyRange : LineClamp :=
  construct (Monospace.element 80 20 "ab cd" ∅)
    (mkInit None None None None (Some 5) (Some 3)).

(** Text with white space at both ends. *)
Definition padded : Element := Monospace.element 80 20 " ab cd " ∅.

Definition after (fuel : nat) (this : LineClamp) : LineClamp :=
  default this (clamp fuel this).

Definition returns (fuel : nat) (this : LineClamp) : bool :=
  match clamp fuel this with Some _ => true | None => false end.

End Run.

(** ** Three sentences of the specification, as they are written *)

Module Stated.

(** "In every remediation pass that actually changed rendering state, exactly
    one of the soft-clamp-attempted and hard-clamp-applied signals fires, and
    the clamp-completed signal fires exactly once if and only if the pass
    ended in a fitting state." *)
Definition oneRemedySignal (fuel : nat) (this : LineClamp) : Prop :=
  forall this', clamp fuel this = Some this' ->
    (content (_element this') <> content (_element this)
     \/ style (_element this') <> style (_element this)) ->
    (fired Run.soft this this' + fired Run.hard this this' = 1)%nat
    /\ (fired Run.completed this this' = 1%nat <-> overflows this' = false).


(** "For all configurations where the initial content already fits within
    maxLines at maxFontSize, clamp() is idempotent: repeated calls produce no
    style change and no content change on the surface, and no signals are
    emitted."  The premise is read both ways: the element fits as it is, and
    it fits with the inline font size set to [maxFontSize]. *)
Definition noOpWhenFitting (fuel : nat) (this : LineClamp) : Prop :=
  overflows this = false ->
  overflowsAtSize this (maxFontSize this) = false ->
  exists this', clamp fuel this = Some this'
    /\ style (_element this') = style (_element this)
    /\ content (_element this') = content (_element this)
    /\ dispatched (_element this') = dispatched (_element this).

End Stated.

(** ** Notions for the further properties *)

(** The [_watching] flag tells the truth about the two subscriptions. *)
Definition consistent (this : LineClamp) : Prop :=
  observing this = Js.truthy (_watching this)
  /\ resizeListening this = Js.truthy (_watching this).

(** Words, options and host of [b] are those of [a]. *)
Definition sameSettings (a b : LineClamp) : Prop :=
  originalWords b = originalWords a
  /\ maxLines b = maxLines a /\ useSoftClamp b = useSoftClamp a
  /\ strict b = strict a /\ basisLineHeight b = basisLineHeight a
  /\ minFontSize b = minFontSize a /\ maxFontSize b = maxFontSize a
  /\ host (_element b) = host (_element a).

Fixpoint noWhiteSpace (s : string) : bool :=
  match s with
  | "" => true
  | String c r => negb (Js.isWhiteSpace c) && noWhiteSpace r
  end.

(** [w] put in front of the first string of [l]. *)
Definition prependHead (w : string) (l : list string) : list string :=
  match l with
  | [] => [w]
  | h :: t => (w +:+ h) :: t
  end.

(** [text] after [m] rounds of [slice(0, -1)]. *)
Definition trimmedBy (m : nat) (text : string) : string := Nat.iter m Js.dropLast text.

(** The text of the first [k] words, as the word loop writes it. *)
Definition prefixText (this : LineClamp) (k : nat) : string :=
  Js.join " " (Js.sliceTo k (originalWords this)).

Definition prefixOverflows (this : LineClamp) (k : nat) : bool :=
  overflowsIn this (TextContent (prefixText this k)) (style (_element this)).

Definition ellipsisOverflows (this : LineClamp) (text : string) : bool :=
  overflowsIn this (InnerHTML (text +:+ "&hellip;")) (style (_element this)).

Module More.

(** Three words in a box four glyphs wide, hard clamp only. *)
Definition threeWords : LineClamp :=
  construct (Monospace.element 80 20 "ab cd ef" ∅)
    (mkInit None (Some false) None None None None).

(** An element without text: its box has no height. *)
Definition blank : LineClamp :=
  construct (Monospace.element 80 20 "" ∅) noOptions.

(** Watching, as [watch()] leaves a fresh instance. *)
Definition watched : LineClamp := watchOnly Run.shrinkable.

(** A callback that overwrites the inline style and reports the height. *)
Definition repaint (el : Element) : N * Element :=
  (offsetHeight el, withStyle {["color" := "red"]} el).

Definition someOptions : LineClampInit :=
  mkInit (Some 2%nat) None None None None None.

(** An element holding the words of [Run.padded] joined by single spaces. *)
Definition rejoined : Element :=
  Monospace.element 80 40 (Js.join " " (originalWords (construct Run.padded noOptions))) ∅.

(** The instance [hardClamp()] or [softClamp()] leaves, and whether they
    return within [fuel] rounds. *)
Definition afterHard (fuel : nat) (this : LineClamp) : LineClamp :=
  default this (hardClamp fuel this).

Definition hardReturns (fuel : nat) (this : LineClamp) : bool :=
  match hardClamp fuel this with Some _ => true | None => false end.

Definition afterSoft (fuel : nat) (this : LineClamp) : LineClamp :=
  default this (softClamp fuel this).

Definition softReturns (fuel : nat) (this : LineClamp) : bool :=
  match softClamp fuel this with Some _ => true | None => false end.

(** A box held at 136 pixels by an inline minimum height, on seven lines:
    the element and the calibration fragment are both 136 pixels tall. *)
Definition sevenLines : LineClamp :=
  construct (Monospace.element 80 10 "ab" {["min-height" := "136px"]})
    (mkInit (Some 7%nat) None None None None None).

(** A line budget of zero. *)
Definition noLines : LineClamp :=
  construct (Monospace.element 80 20 "ab cd" ∅)
    (mkInit (Some 0%nat) None None None None None).

End More.

(** ** Basic facts *)

Lemma parse_serialized (el : Element) : parseCssText (cssText el) = style el.
Proof. reflexivity. Qed.

Lemma parse_measuring (el : Element) :
  parseCssText (cssAppend (cssText el) (";" +:+ Js.arrayToString stylesToZeroOut))
  = style el.
Proof. reflexivity. Qed.

Lemma shouldClamp_eq (this : LineClamp) :
  shouldClamp this = (overflows this, settled this).
Proof.
  destruct this as [ws ob rs [h c s ev] w n soft str basis lo hi].
  unfold shouldClamp, textDimensions, _whileMeasuring, overflows, overflowsIn,
    overflowsWith, settled, offsetHeight; cbn.
  destruct w as [[|]|]; reflexivity.
Qed.

Lemma settled_settled (this : LineClamp) : settled (settled this) = settled this.
Proof. reflexivity. Qed.

Lemma overflows_settled (this : LineClamp) : overflows (settled this) = overflows this.
Proof. reflexivity. Qed.

Lemma string_length_app (a b : string) :
  String.length (a +:+ b) = (String.length a + String.length b)%nat.
Proof.
  induction a as [|c a IH]; [reflexivity|].
  change (S (String.length (a +:+ b)) = S (String.length a + String.length b)).
  f_equal. exact IH.
Qed.

Lemma pretty_px_negative (i : Z) : negativeLength (pretty i +:+ "px") = (i <? 0)%Z.
Proof.
  destruct i as [|p|p]; [reflexivity | | reflexivity].
  change (pretty (Zpos p)) with (pretty (Npos p)).
  destruct (pretty (Npos p)) as [|c r] eqn:E; [reflexivity|].
  change (String c r +:+ "px") with (String c (r +:+ "px")). cbn [negativeLength].
  destruct (Ascii.eqb_spec c "-") as [->|Hc]; [|reflexivity].
  exfalso. unfold pretty, pretty_N in E.
  destruct (decide (Npos p = 0)%N); [discriminate|].
  apply (pretty_N_go_ne_dash (Npos p) "" r); [discriminate | exact E].
Qed.

Lemma setFontSize_px (i : Z) (el : Element) :
  setFontSize (pretty i +:+ "px") el
  = if (0 <=? i)%Z then withStyle (sized i (style el)) el else el.
Proof.
  pose proof (pretty_px_negative i) as Hneg. unfold setFontSize, sized.
  destruct (pretty i +:+ "px") as [|c r] eqn:E.
  - apply (f_equal String.length) in E. rewrite string_length_app in E.
    cbn in E. lia.
  - rewrite Hneg.
    destruct (Z.ltb_spec i 0), (Z.leb_spec 0 i); try lia; reflexivity.
Qed.

Lemma sized_sized (i j : Z) (s : Style) : sized i (sized j s) = sized i s.
Proof. unfold sized. apply insert_insert_eq. Qed.

Lemma sized_delete (i : Z) (s : Style) : sized i (delete "font-size" s) = sized i s.
Proof. unfold sized. apply insert_delete_eq. Qed.

Lemma delete_sized (i : Z) (s : Style) :
  delete "font-size" (sized i s) = delete "font-size" s.
Proof. unfold sized. apply delete_insert_eq. Qed.

(** The test at a size depends on the inline style only through what is
    left of it once the font size is cleared. *)
Lemma overflowsAtSize_ext (a b : LineClamp) (i : Z) :
  host (_element a) = host (_element b) ->
  content (_element a) = content (_element b) ->
  (maxLines a, strict a, basisLineHeight a) = (maxLines b, strict b, basisLineHeight b) ->
  delete "font-size" (style (_element a)) = delete "font-size" (style (_element b)) ->
  overflowsAtSize a i = overflowsAtSize b i.
Proof.
  intros Hh Hc Hcfg Hs. injection Hcfg as Hn Hst Hb.
  unfold overflowsAtSize, fontReset, onElement. rewrite !setFontSize_px.
  destruct (0 <=? i)%Z; unfold overflows, overflowsIn; cbn;
    rewrite Hh, Hc, Hn, Hst, Hb, Hs; reflexivity.
Qed.

Lemma overflowsAtSize_valid (this : LineClamp) (i : Z) :
  0 <= i ->
  overflowsAtSize this i
  = overflowsIn this (content (_element this)) (sized i (style (_element this))).
Proof.
  intros Hi. unfold overflowsAtSize, fontReset, onElement. rewrite setFontSize_px.
  replace (0 <=? i)%Z with true by (symmetry; apply Z.leb_le; exact Hi).
  unfold overflows, overflowsIn. cbn. rewrite sized_delete. reflexivity.
Qed.

Lemma overflowsAtSize_negative (this : LineClamp) (i : Z) :
  i < 0 -> overflowsAtSize this i = overflows (fontReset this).
Proof.
  intros Hi. unfold overflowsAtSize, onElement. rewrite setFontSize_px.
  replace (0 <=? i)%Z with false by (symmetry; apply Z.leb_gt; exact Hi).
  reflexivity.
Qed.

Lemma overflows_reset_ext (a b : LineClamp) :
  host (_element a) = host (_element b) ->
  content (_element a) = content (_element b) ->
  (maxLines a, strict a, basisLineHeight a) = (maxLines b, strict b, basisLineHeight b) ->
  delete "font-size" (style (_element a)) = delete "font-size" (style (_element b)) ->
  overflows (fontReset a) = overflows (fontReset b).
Proof.
  intros Hh Hc Hcfg Hs. injection Hcfg as Hn Hst Hb.
  unfold overflows, overflowsIn. cbn. rewrite Hh, Hc, Hn, Hst, Hb, Hs. reflexivity.
Qed.

(** *** The character loop *)

Lemma trimCharacters_spec (fuel : nat) :
  forall (text : string) (this this' : LineClamp),
    trimCharacters fuel text this = Some this' ->
    exists text',
      this' = withElement (withContent (InnerHTML (text' +:+ "&hellip;")) (_element this))
                (settled this)
      /\ overflows this' = false.
Proof.
  induction fuel as [|fuel IH]; intros text this this' H; [discriminate|].
  cbn [trimCharacters] in H. rewrite shouldClamp_eq in H.
  destruct (overflows _) eqn:Hov.
  - apply IH in H. destruct H as (text' & -> & Hfit).
    exists text'. split; [reflexivity | exact Hfit].
  - injection H as <-. exists (Js.dropLast text). split; [reflexivity | exact Hov].
Qed.

(** More fuel does not change a result. *)
Lemma trimCharacters_mono (fuel : nat) :
  forall (text : string) (this this' : LineClamp),
    trimCharacters fuel text this = Some this' ->
    trimCharacters (S fuel) text this = Some this'.
Proof.
  induction fuel as [|fuel IH]; intros text this this' H; [discriminate|].
  cbn [trimCharacters] in H. cbn [trimCharacters]. rewrite shouldClamp_eq in *.
  destruct (overflows _); [|exact H].
  apply IH in H. exact H.
Qed.

(** The loop never ends when the ellipsis overflows after each text it
    reaches. *)
Lemma trimCharacters_diverges (fuel : nat) :
  forall (text : string) (this : LineClamp),
    (forall m, (1 <= m)%nat -> ellipsisOverflows this (trimmedBy m text) = true) ->
    trimCharacters fuel text this = None.
Proof.
  induction fuel as [|fuel IH]; intros text this Hall; [reflexivity|].
  cbn [trimCharacters]. rewrite shouldClamp_eq.
  change (overflows _) with (ellipsisOverflows this (trimmedBy 1 text)).
  rewrite (Hall 1%nat) by lia.
  apply IH. intros m Hm.
  change (ellipsisOverflows this (trimmedBy m (trimmedBy 1 text)) = true).
  unfold trimmedBy. rewrite <- Nat.iter_succ_r. apply (Hall (S m)). lia.
Qed.

Lemma dropLast_length (text : string) :
  String.length (Js.dropLast text) = pred (String.length text).
Proof.
  induction text as [|c r IH]; [reflexivity|].
  destruct r as [|c' r']; [reflexivity|].
  change (Js.dropLast (String c (String c' r')))
    with (String c (Js.dropLast (String c' r'))).
  change (String.length (String c (Js.dropLast (String c' r'))))
    with (S (String.length (Js.dropLast (String c' r')))).
  rewrite IH. reflexivity.
Qed.

(** The loop does end when the ellipsis alone fits: one round per character
    and one more are enough. *)
Lemma trimCharacters_terminates (n : nat) :
  forall (text : string) (this : LineClamp),
    overflowsIn this (InnerHTML "&hellip;") (style (_element this)) = false ->
    (String.length text <= n)%nat ->
    is_Some (trimCharacters (S n) text this).
Proof.
  induction n as [|n IH]; intros text this Hfit Hlen.
  - destruct text as [|c r]; [|cbn in Hlen; lia].
    cbn [trimCharacters]. rewrite shouldClamp_eq.
    change (overflows _)
      with (overflowsIn this (InnerHTML "&hellip;") (style (_element this))).
    rewrite Hfit. eexists. reflexivity.
  - change (trimCharacters (S (S n)) text this)
      with (let currentText := Js.dropLast text in
            let this0 :=
              onElement (setInnerHTML (Markup (currentText +:+ "&hellip;"))) this in
            let '(again, this1) := shouldClamp this0 in
            if again then trimCharacters (S n) currentText this1 else Some this1).
    cbv zeta. rewrite shouldClamp_eq.
    destruct (overflows _); [|eexists; reflexivity].
    apply IH; [exact Hfit|]. rewrite dropLast_length. lia.
Qed.

(** *** The word loop *)

Lemma trimWords_spec (fuel todo : nat) :
  forall (i : nat) (this this' : LineClamp),
    trimWords fuel todo i this = Some this' ->
    (todo = O /\ this' = this)
    \/ (todo <> O /\ exists c,
          this' = withElement (withContent c (_element this)) (settled this)
          /\ overflows this' = false).
Proof.
  induction todo as [|todo IH]; intros i this this' H.
  - injection H as <-. left. split; reflexivity.
  - right. split; [congruence|].
    cbn [trimWords] in H. rewrite shouldClamp_eq in H.
    destruct (overflows _) eqn:Hov.
    + apply trimCharacters_spec in H. destruct H as (text' & -> & Hfit).
      eexists. split; [reflexivity | exact Hfit].
    + apply IH in H. destruct H as [[_ ->] | [_ (c & -> & Hfit)]].
      * eexists. split; [reflexivity | exact Hov].
      * eexists. split; [reflexivity | exact Hfit].
Qed.

(** When no prefix tried overflows, the loop ends on the last prefix tried. *)
Lemma trimWords_all_fit (fuel todo : nat) :
  forall (i : nat) (this : LineClamp),
    (forall k, (i <= k <= i + todo)%nat ->
       overflowsIn this
         (TextContent (Js.join " " (Js.sliceTo k (originalWords this))))
         (style (_element this)) = false) ->
    trimWords fuel (S todo) i this
    = Some (withElement
              (withContent
                 (TextContent (Js.join " " (Js.sliceTo (i + todo) (originalWords this))))
                 (_element this))
              (settled this)).
Proof.
  induction todo as [|todo IH]; intros i this Hfit.
  - cbn [trimWords]. rewrite shouldClamp_eq.
    replace (overflows _) with false by (symmetry; apply (Hfit i); lia).
    rewrite Nat.add_0_r. reflexivity.
  - change (trimWords fuel (S (S todo)) i this)
      with (let currentText := Js.join " " (Js.sliceTo i (originalWords this)) in
            let this0 := onElement (setTextContent currentText) this in
            let '(over, this1) := shouldClamp this0 in
            if over then trimCharacters fuel currentText this1
            else trimWords fuel (S todo) (S i) this1).
    cbv zeta. rewrite shouldClamp_eq.
    replace (overflows _) with false by (symmetry; apply (Hfit i); lia).
    rewrite IH.
    + replace (S i + todo)%nat with (i + S todo)%nat by lia. reflexivity.
    + intros k Hk. apply (Hfit k). lia.
Qed.

(** *** Hard clamp *)

Lemma hardClamp_spec (fuel : nat) (this this' : LineClamp) :
  hardClamp fuel this = Some this' ->
  exists c,
    this' = withElement
              (mkElement (host (_element this)) c
                 (delete "min-height" (style (_element this)))
                 (dispatched (_element this) ++
                    if overflows this
                    then ["lineclamp.hardClamp"; "lineclamp.clamp"] else []))
              (settled this).
Proof.
  unfold hardClamp. rewrite shouldClamp_eq.
  destruct (overflows this) eqn:Hov.
  - destruct (trimWords _ _ _ _) as [this1|] eqn:Hw; [|discriminate].
    cbn. intros H. injection H as <-.
    apply trimWords_spec in Hw.
    destruct Hw as [[_ ->] | [_ (c & -> & _)]].
    + exists (content (_element this)).
      unfold onElement, triggerEvent, removeProperty, dispatchEvent, withStyle.
      cbn. rewrite <- app_assoc. reflexivity.
    + exists c.
      unfold onElement, triggerEvent, removeProperty, dispatchEvent, withStyle.
      cbn. rewrite <- app_assoc. reflexivity.
  - cbn. intros H. injection H as <-.
    exists (content (_element this)). rewrite app_nil_r. reflexivity.
Qed.

(** *** The font-size loop *)

Lemma withElement_self (this : LineClamp) :
  withElement (_element this) (settled this) = settled this.
Proof. destruct this as [ws ob rs el w n soft str basis lo hi]. reflexivity. Qed.

(** After a candidate is tried, the tests at the sizes are what they were. *)
Lemma overflowsAtSize_step (this : LineClamp) (st : Style) (s : Z) :
  delete "font-size" st = delete "font-size" (style (_element this)) ->
  overflowsAtSize (settled (withElement (withStyle st (_element this)) this)) s
  = overflowsAtSize this s.
Proof. intros Hst. apply overflowsAtSize_ext; [reflexivity .. | exact Hst]. Qed.

Lemma overflows_reset_step (this : LineClamp) (st : Style) :
  delete "font-size" st = delete "font-size" (style (_element this)) ->
  overflows (fontReset (settled (withElement (withStyle st (_element this)) this)))
  = overflows (fontReset this).
Proof. intros Hst. apply overflows_reset_ext; [reflexivity .. | exact Hst]. Qed.

Lemma overflowsAtSize_reset (this : LineClamp) (s : Z) :
  overflowsAtSize (settled (fontReset this)) s = overflowsAtSize this s.
Proof. apply overflowsAtSize_ext; [reflexivity .. | apply delete_delete_eq]. Qed.

Lemma overflows_reset_reset (this : LineClamp) :
  overflows (fontReset (settled (fontReset this))) = overflows (fontReset this).
Proof. apply overflows_reset_ext; [reflexivity .. | apply delete_delete_eq]. Qed.

(** The state the loop leaves when every size of the range overflows: the
    last candidate that is a font size, if there is one. *)
Lemma shrinkFont_exhausted (todo : nat) :
  forall (i : Z) (this : LineClamp),
    overflows this = true ->
    overflows (fontReset this) = true ->
    (forall s, minFontSize this <= s <= i -> overflowsAtSize this s = true) ->
    (Z.to_nat (i - minFontSize this + 1) <= todo)%nat ->
    shrinkFont todo i this
    = (false,
       if (minFontSize this <=? i)%Z
       then withElement
              (if (0 <=? i)%Z
               then withStyle (sized (Z.max (minFontSize this) 0) (style (_element this)))
                      (_element this)
               else _element this)
              (settled this)
       else this).
Proof.
  induction todo as [|todo IH]; intros i this Hcur Hreset Hall Hn.
  - replace (minFontSize this <=? i)%Z with false by (symmetry; apply Z.leb_gt; lia).
    reflexivity.
  - cbn [shrinkFont]. destruct (i >=? minFontSize this) eqn:Hi.
    2:{ rewrite Z.geb_leb in Hi. rewrite Hi. reflexivity. }
    rewrite Z.geb_leb in Hi. rewrite Hi. apply Z.leb_le in Hi.
    unfold onElement. rewrite setFontSize_px, shouldClamp_eq.
    destruct (0 <=? i)%Z eqn:Hpos.
    + apply Z.leb_le in Hpos.
      change (overflows _)
        with (overflowsIn this (content (_element this))
                (sized i (style (_element this)))).
      rewrite <- (overflowsAtSize_valid this i Hpos), (Hall i) by lia. cbn [negb].
      rewrite IH.
      * cbn [minFontSize settled withSubscription withElement _element style withStyle].
        destruct (minFontSize this <=? i - 1)%Z eqn:Hlo; [|f_equal].
        -- apply Z.leb_le in Hlo. f_equal. destruct (0 <=? i - 1)%Z eqn:Hpos'.
           ++ cbn. rewrite sized_sized. reflexivity.
           ++ apply Z.leb_gt in Hpos'. assert (i = 0) as -> by lia.
              replace (Z.max (minFontSize this) 0) with 0 by lia. reflexivity.
        -- apply Z.leb_gt in Hlo. assert (i = minFontSize this) as Heq by lia.
           replace (Z.max (minFontSize this) 0) with i by lia. reflexivity.
      * change (overflows _)
          with (overflowsIn this (content (_element this))
                  (sized i (style (_element this)))).
        rewrite <- (overflowsAtSize_valid this i Hpos). apply Hall. lia.
      * rewrite overflows_reset_step; [exact Hreset | apply delete_sized].
      * intros s Hs. rewrite overflowsAtSize_step by apply delete_sized.
        apply Hall. cbn in Hs. lia.
      * cbn. lia.
    + change (overflows (withElement (_element this) this)) with (overflows this).
      rewrite Hcur. cbn [negb]. rewrite IH.
      * cbn [minFontSize settled withSubscription withElement _element style withStyle].
        apply Z.leb_gt in Hpos.
        replace (0 <=? i - 1)%Z with false by (symmetry; apply Z.leb_gt; lia).
        destruct (minFontSize this <=? i - 1)%Z; reflexivity.
      * exact Hcur.
      * exact Hreset.
      * intros s Hs.
        rewrite (overflowsAtSize_ext (settled (withElement (_element this) this))
                   this s) by reflexivity.
        apply Hall. cbn in Hs. lia.
      * cbn. lia.
Qed.

(** The state the loop leaves when [s] is the largest size of the range that
    fits. *)
Lemma shrinkFont_found (todo : nat) :
  forall (i s : Z) (this : LineClamp),
    overflows (fontReset this) = true ->
    minFontSize this <= s <= i ->
    overflowsAtSize this s = false ->
    (forall s', s < s' <= i -> overflowsAtSize this s' = true) ->
    (Z.to_nat (i - s + 1) <= todo)%nat ->
    shrinkFont todo i this
    = (true,
       withElement (withStyle (sized s (style (_element this))) (_element this))
         (settled this)).
Proof.
  induction todo as [|todo IH]; intros i s this Hreset Hs Hfit Habove Hn; [lia|].
  assert (0 <= s) as Hpos.
  { destruct (Z.le_gt_cases 0 s) as [H|H]; [exact H|].
    rewrite (overflowsAtSize_negative this s) in Hfit by lia. congruence. }
  cbn [shrinkFont].
  replace (i >=? minFontSize this) with true by (symmetry; apply Z.geb_le; lia).
  unfold onElement. rewrite setFontSize_px, shouldClamp_eq.
  replace (0 <=? i)%Z with true by (symmetry; apply Z.leb_le; lia).
  change (overflows _)
    with (overflowsIn this (content (_element this)) (sized i (style (_element this)))).
  rewrite <- (overflowsAtSize_valid this i) by lia.
  destruct (Z.eq_dec i s) as [->|Hne].
  - rewrite Hfit. reflexivity.
  - rewrite (Habove i) by lia. cbn [negb].
    rewrite (IH (i - 1) s).
    + cbn. rewrite sized_sized. reflexivity.
    + rewrite overflows_reset_step; [exact Hreset | apply delete_sized].
    + cbn. lia.
    + rewrite overflowsAtSize_step by apply delete_sized. exact Hfit.
    + intros s' Hs'. rewrite overflowsAtSize_step by apply delete_sized.
      apply Habove. lia.
    + lia.
Qed.

(** Either some size of the range fits, and then one is the largest, or
    every size overflows. *)
Lemma largest_fit_or_none (over : Z -> bool) (lo : Z) (n : nat) :
  forall hi, Z.to_nat (hi - lo + 1) = n ->
    (exists s, lo <= s <= hi /\ over s = false
               /\ forall s', s < s' <= hi -> over s' = true)
    \/ (forall s, lo <= s <= hi -> over s = true).
Proof.
  induction n as [|n IH]; intros hi Hn; [right; intros; lia|].
  destruct (over hi) eqn:Hhi.
  - destruct (IH (hi - 1) ltac:(lia)) as [(s & Hs & Hfit & Habove) | Hall].
    + left. exists s. split; [lia|]. split; [exact Hfit|].
      intros s' Hs'. destruct (Z.eq_dec s' hi) as [->|Hne]; [exact Hhi|].
      apply Habove. lia.
    + right. intros s Hs. destruct (Z.eq_dec s hi) as [->|Hne]; [exact Hhi|].
      apply Hall. lia.
  - left. exists hi. split; [lia|]. split; [exact Hhi | intros; lia].
Qed.

(** The bound on the rounds is never what stops the loop: any larger bound
    gives the same result. *)
Lemma shrinkFont_enough (extra todo : nat) :
  forall (i : Z) (this : LineClamp),
    (Z.to_nat (i - minFontSize this + 1) <= todo)%nat ->
    shrinkFont (extra + todo) i this = shrinkFont todo i this.
Proof.
  induction todo as [|todo IH]; intros i this Hn.
  - rewrite Nat.add_0_r. destruct extra as [|extra]; [reflexivity|].
    cbn [shrinkFont]. destruct (i >=? minFontSize this) eqn:Hi; [|reflexivity].
    apply Z.geb_le in Hi. lia.
  - rewrite Nat.add_succ_r. cbn [shrinkFont].
    destruct (i >=? minFontSize this) eqn:Hi; [|reflexivity].
    apply Z.geb_le in Hi. rewrite shouldClamp_eq.
    destruct (overflows _); cbn [negb]; [|reflexivity].
    apply IH. cbn [minFontSize settled withSubscription onElement withElement]. lia.
Qed.

(** *** Soft clamp *)

Lemma softClamp_fit (fuel : nat) (this : LineClamp) (s : Z) :
  overflows (fontReset this) = true ->
  minFontSize this <= s <= maxFontSize this ->
  overflowsAtSize this s = false ->
  (forall s', s < s' <= maxFontSize this -> overflowsAtSize this s' = true) ->
  softClamp fuel this
  = Some (withElement
            (mkElement (host (_element this)) (content (_element this))
               (sized s (style (_element this)))
               (dispatched (_element this) ++ [Run.soft; Run.completed]))
            (settled this)).
Proof.
  intros Hov Hs Hfit Habove.
  unfold softClamp. fold (fontReset this). rewrite shouldClamp_eq, Hov.
  change (maxFontSize (settled (fontReset this))) with (maxFontSize this).
  change (minFontSize (settled (fontReset this))) with (minFontSize this).
  rewrite (shrinkFont_found _ _ s).
  - cbn [negb]. unfold triggerEvent, onElement, dispatchEvent, fontReset, setFontSize,
      withStyle. cbn. rewrite sized_delete, <- app_assoc. reflexivity.
  - rewrite overflows_reset_reset. exact Hov.
  - exact Hs.
  - rewrite overflowsAtSize_reset. exact Hfit.
  - intros s' Hs'. rewrite overflowsAtSize_reset. apply Habove. exact Hs'.
  - lia.
Qed.

Lemma softClamp_exhausted (fuel : nat) (this : LineClamp) :
  overflows (fontReset this) = true ->
  (forall s, minFontSize this <= s <= maxFontSize this ->
     overflowsAtSize this s = true) ->
  softClamp fuel this
  = hardClamp fuel
      (triggerEvent Run.soft
         (if (minFontSize this <=? maxFontSize this)%Z && (0 <=? maxFontSize this)%Z
          then withElement
                 (withStyle
                    (sized (Z.max (minFontSize this) 0) (style (_element this)))
                    (_element this))
                 (settled this)
          else settled (fontReset this))).
Proof.
  intros Hov Hall.
  assert (shrinkFont (Z.to_nat (maxFontSize this - minFontSize this + 1))
            (maxFontSize this) (settled (fontReset this))
          = (false,
             if (minFontSize this <=? maxFontSize this)%Z && (0 <=? maxFontSize this)%Z
             then withElement
                    (withStyle
                       (sized (Z.max (minFontSize this) 0) (style (_element this)))
                       (_element this))
                    (settled this)
             else settled (fontReset this))) as Hloop.
  { rewrite shrinkFont_exhausted.
    - change (minFontSize (settled (fontReset this))) with (minFontSize this).
      destruct (minFontSize this <=? maxFontSize this)%Z; [|reflexivity].
      destruct (0 <=? maxFontSize this)%Z; cbn [andb]; apply (f_equal (pair false)).
      + unfold fontReset, onElement, setFontSize, withStyle. cbn.
        rewrite sized_delete. reflexivity.
      + apply (withElement_self (settled (fontReset this))).
    - exact Hov.
    - rewrite overflows_reset_reset. exact Hov.
    - intros s Hs. rewrite overflowsAtSize_reset. apply Hall. exact Hs.
    - apply Nat.le_refl. }
  unfold softClamp. fold (fontReset this). rewrite shouldClamp_eq, Hov.
  change (maxFontSize (settled (fontReset this))) with (maxFontSize this).
  change (minFontSize (settled (fontReset this))) with (minFontSize this).
  rewrite Hloop. reflexivity.
Qed.

Lemma fit_at_size (this : LineClamp) (s : Z) (d : list string) :
  overflows (fontReset this) = true ->
  overflowsAtSize this s = false ->
  0 <= s
  /\ overflows
       (withElement
          (mkElement (host (_element this)) (content (_element this))
             (sized s (style (_element this))) d)
          (settled this)) = false.
Proof.
  intros Hov Hfit.
  assert (0 <= s) as Hpos.
  { destruct (Z.le_gt_cases 0 s) as [H|H]; [exact H|].
    rewrite (overflowsAtSize_negative this s) in Hfit by lia. congruence. }
  split; [exact Hpos|].
  rewrite (overflowsAtSize_valid this s Hpos) in Hfit. exact Hfit.
Qed.

Lemma softClamp_spec (fuel : nat) (this this' : LineClamp) :
  softClamp fuel this = Some this' ->
  (overflows (fontReset this) = false
   /\ this' = settled (fontReset this))
  \/ (overflows (fontReset this) = true
      /\ exists s,
          minFontSize this <= s <= maxFontSize this
          /\ overflowsAtSize this s = false
          /\ (forall s', s < s' <= maxFontSize this -> overflowsAtSize this s' = true)
          /\ this' = withElement
                       (mkElement (host (_element this)) (content (_element this))
                          (sized s (style (_element this)))
                          (dispatched (_element this)
                             ++ ["lineclamp.softClamp"; "lineclamp.clamp"]))
                       (settled this))
  \/ (overflows (fontReset this) = true
      /\ (forall s, minFontSize this <= s <= maxFontSize this ->
            overflowsAtSize this s = true)
      /\ exists c st,
          this' = withElement
                    (mkElement (host (_element this)) c st
                       (dispatched (_element this)
                          ++ ["lineclamp.softClamp"; "lineclamp.hardClamp";
                              "lineclamp.clamp"]))
                    (settled this)).
Proof.
  intros H. destruct (overflows (fontReset this)) eqn:Hov.
  2:{ left. split; [reflexivity|]. unfold softClamp in H. fold (fontReset this) in H.
      rewrite shouldClamp_eq, Hov in H. injection H as <-. reflexivity. }
  right.
  destruct (largest_fit_or_none (overflowsAtSize this) (minFontSize this) _
              (maxFontSize this) eq_refl)
    as [(s & Hs & Hfit & Habove) | Hall].
  - left. split; [reflexivity|]. exists s.
    rewrite (softClamp_fit fuel this s Hov Hs Hfit Habove) in H. injection H as <-.
    split; [exact Hs|]. split; [exact Hfit|]. split; [exact Habove | reflexivity].
  - right. split; [reflexivity|]. split; [exact Hall|].
    rewrite (softClamp_exhausted fuel this Hov Hall) in H.
    apply hardClamp_spec in H. destruct H as (c & ->).
    assert (overflows
              (triggerEvent Run.soft
                 (if (minFontSize this <=? maxFontSize this)%Z
                     && (0 <=? maxFontSize this)%Z
                  then withElement
                         (withStyle
                            (sized (Z.max (minFontSize this) 0) (style (_element this)))
                            (_element this))
                         (settled this)
                  else settled (fontReset this))) = true) as Hguard.
    { destruct (minFontSize this <=? maxFontSize this)%Z eqn:Hlo;
        destruct (0 <=? maxFontSize this)%Z eqn:Hpos; cbn [andb]; try exact Hov.
      apply Z.leb_le in Hlo, Hpos.
      change (overflows _)
        with (overflowsIn this (content (_element this))
                (sized (Z.max (minFontSize this) 0) (style (_element this)))).
      rewrite <- overflowsAtSize_valid by lia. apply Hall. lia. }
    rewrite Hguard.
    destruct ((minFontSize this <=? maxFontSize this)%Z && (0 <=? maxFontSize this)%Z);
      eexists _, _; unfold triggerEvent, onElement, dispatchEvent; cbn;
      rewrite <- app_assoc; reflexivity.
Qed.

(** If some prefix tried overflows, the character loop is entered; it does not
    come back when the ellipsis overflows after every text it reaches. *)
Lemma trimWords_diverges (fuel todo : nat) :
  forall (i k : nat) (this : LineClamp),
    (i <= k < i + todo)%nat ->
    prefixOverflows this k = true ->
    (forall j m, (i <= j <= k)%nat -> (1 <= m)%nat ->
       ellipsisOverflows this (trimmedBy m (prefixText this j)) = true) ->
    trimWords fuel todo i this = None.
Proof.
  induction todo as [|todo IH]; intros i k this Hk Hover Hall; [lia|].
  cbn [trimWords]. rewrite shouldClamp_eq.
  change (overflows _) with (prefixOverflows this i).
  destruct (prefixOverflows this i) eqn:Hov.
  - apply trimCharacters_diverges. intros m Hm. apply (Hall i m); lia.
  - apply (IH (S i) k).
    + destruct (Nat.eq_dec k i) as [->|Hne]; [congruence | lia].
    + exact Hover.
    + intros j m Hj Hm. apply (Hall j m); lia.
Qed.

Lemma hardClamp_diverges (fuel k : nat) (this : LineClamp) :
  overflows this = true ->
  (k < length (originalWords this))%nat ->
  prefixOverflows this k = true ->
  (forall j m, (j <= k)%nat -> (1 <= m)%nat ->
     ellipsisOverflows this (trimmedBy m (prefixText this j)) = true) ->
  hardClamp fuel this = None.
Proof.
  intros Hguard Hk Hover Hall.
  unfold hardClamp. rewrite shouldClamp_eq, Hguard.
  rewrite (trimWords_diverges fuel _ 0 k (settled this)); [reflexivity | | exact Hover |].
  - cbn. lia.
  - intros j m Hj Hm. apply (Hall j m); lia.
Qed.

Lemma hardClamp_all_fit (fuel : nat) (this : LineClamp) :
  overflows this = true ->
  originalWords this <> [] ->
  (forall k, (k < length (originalWords this))%nat ->
     overflowsIn this
       (TextContent (Js.join " " (Js.sliceTo k (originalWords this))))
       (style (_element this)) = false) ->
  hardClamp fuel this
  = Some (withElement
            (mkElement (host (_element this))
               (TextContent
                  (Js.join " "
                     (Js.sliceTo (length (originalWords this) - 1) (originalWords this))))
               (delete "min-height" (style (_element this)))
               (dispatched (_element this) ++ [Run.hard; Run.completed]))
            (settled this)).
Proof.
  intros Hguard Hne Hfit.
  unfold hardClamp. rewrite shouldClamp_eq, Hguard.
  change (originalWords (settled this)) with (originalWords this).
  destruct (length (originalWords this)) as [|n] eqn:Hlen.
  { destruct (originalWords this); [congruence | discriminate]. }
  rewrite trimWords_all_fit.
  - cbn. unfold triggerEvent, onElement, removeProperty, dispatchEvent, withStyle.
    cbn. rewrite <- app_assoc, Nat.sub_0_r. reflexivity.
  - intros k Hk. apply Hfit. lia.
Qed.

(** *** The fixed-pitch host *)

Lemma trimmedBy_empty (m : nat) : trimmedBy m "" = "".
Proof.
  unfold trimmedBy. induction m as [|m IH]; [reflexivity|].
  rewrite Nat.iter_succ, IH. reflexivity.
Qed.

(** ** The measurement protocol *)

(** C1 (defect in the code).  The specification has [_whileMeasuring] append
    zeroing overrides for minimum height, border widths and paddings before
    the callback runs.  The code builds those overrides in [newStyles] and
    then concatenates the array [stylesToZeroOut] itself: the text appended
    is the comma-joined property names, which declares nothing.  The callback
    therefore runs under the unchanged inline style; appending [newStyles]
    would have set [min-height] to [0!important].  On an element with an
    inline minimum height of 100 pixels and one 20-pixel line of text, the
    measured inner height is 100. *)
Theorem whileMeasuring_appends_names (this : LineClamp) :
  let seen := fst (_whileMeasuring (fun el => (style el, el)) this) in
  seen = parseCssText
           (mkCssText (style (_element this))
              ";min-height,border-top-width,border-bottom-width,padding-top-width,padding-bottom-width")
  /\ seen = style (_element this)
  /\ parseCssText (mkCssText (style (_element this)) (";" +:+ newStyles))
       !! "min-height" = Some "0!important"
  /\ offsetHeight (withStyle ∅ (_element Run.reserved)) = 20%N
  /\ fst (textDimensions Run.reserved) = mkDimensions (Js.ofN 100) (Js.ofN 100).
Proof.
  split; [reflexivity|]. split; [reflexivity|]. split.
  - change (parseCssText (mkCssText (style (_element this)) (";" +:+ newStyles)))
      with (<["padding-bottom-width" := "0!important"]>
              (<["padding-top-width" := "0!important"]>
                 (<["border-bottom-width" := "0!important"]>
                    (<["border-top-width" := "0!important"]>
                       (<["min-height" := "0!important"]> (style (_element this))))))).
    rewrite !lookup_insert_ne by discriminate. apply lookup_insert_eq.
  - split; vm_compute; reflexivity.
Qed.

(** C6.  [shouldClamp()] measures the pair (innerHeight, lineHeight), compares
    against [lineHeight] when [strict] and against [basisLineHeight]
    otherwise, and answers [innerHeight / comparisonLineHeight > maxLines],
    both operations being those of binary64: the answer is true exactly when
    [maxLines] is less than the rounded quotient.  The inner height is the
    height of the element as rendered, the line height that of the
    calibration fragment divided by [maxLines] (and rounded), and the element
    is left as it was.  Two lines against one overflow and one line against
    one does not; a 136-pixel box on seven lines overflows, because
    136 / (136 / 7) rounds above 7. *)
Theorem shouldClamp_decision (this : LineClamp) :
  let d := fst (textDimensions this) in
  let comparisonLineHeight :=
    if strict this then lineHeight d else basisLineHeight this in
  let n := binary_normalize 53 1024 (Z.of_nat (maxLines this)) 0 false in
  fst (shouldClamp this)
  = SFltb n (SFdiv 53 1024 (innerHeight d) comparisonLineHeight)
  /\ (fst (shouldClamp this) = true <->
      SFcompare n (SFdiv 53 1024 (innerHeight d) comparisonLineHeight) = Some Lt)
  /\ innerHeight d
     = binary_normalize 53 1024 (Z.of_N (offsetHeight (_element this))) 0 false
  /\ lineHeight d
     = SFdiv 53 1024
         (binary_normalize 53 1024
            (Z.of_N (offsetHeight
                       (setInnerHTML (calibration (maxLines this)) (_element this))))
            0 false)
         n
  /\ _element (snd (shouldClamp this)) = _element this
  /\ fst (shouldClamp Run.twoWords) = true
  /\ fst (shouldClamp Run.fitting) = false
  /\ fst (shouldClamp More.sevenLines) = true.
Proof.
  cbv zeta.
  assert (forall a b, SFltb a b = true <-> SFcompare a b = Some Lt) as Hlt.
  { intros a b. unfold SFltb. destruct (SFcompare a b) as [[| |]|]; split;
      congruence. }
  destruct this as [ws ob rs [h c s ev] w n soft str basis lo hi].
  unfold shouldClamp, textDimensions, _whileMeasuring. cbn.
  destruct w as [[|]|]; cbn; (split; [reflexivity|]); (split; [apply Hlt|]);
    repeat split; vm_compute; reflexivity.
Qed.

(** ** Hard clamp *)

(** C2 (defect in the code).  The specification requires the character loop
    to stop once the text is used up.  The loop's only exit is
    [!shouldClamp()]: with a basis line height of 10 pixels and rendered
    lines of 20 pixels, the ellipsis alone overflows, and neither
    [hardClamp()] nor [clamp()] returns, whatever number of rounds is
    allowed. *)
Theorem hardClamp_never_returns (fuel : nat) :
  hardClamp fuel Run.tallLine = None /\ clamp fuel Run.tallLine = None.
Proof.
  assert (forall m, (1 <= m)%nat -> trimmedBy m "ab" = "a" \/ trimmedBy m "ab" = "")
    as Hreach.
  { intros [|[|m]] Hm; [lia | left; reflexivity | right].
    unfold trimmedBy. rewrite !Nat.iter_succ_r. apply trimmedBy_empty. }
  assert (forall this,
            _element this = _element Run.tallLine ->
            (maxLines this, strict this, basisLineHeight this, originalWords this)
            = (1%nat, false, Js.ofN 10, ["ab"; "cd"]) ->
            hardClamp fuel this = None) as H.
  { intros this Hel Hcfg. injection Hcfg as Hn Hs Hb Hw.
    assert (forall t, t = "a" \/ t = "" -> ellipsisOverflows this t = true) as Hover.
    { intros t Ht. unfold ellipsisOverflows, overflowsIn. rewrite Hel, Hn, Hs, Hb.
      destruct Ht as [-> | ->]; vm_compute; reflexivity. }
    apply (hardClamp_diverges fuel 1).
    - unfold overflows, overflowsIn. rewrite Hel, Hn, Hs, Hb. vm_compute. reflexivity.
    - rewrite Hw. cbn. lia.
    - unfold prefixOverflows, prefixText, overflowsIn. rewrite Hel, Hn, Hs, Hb, Hw.
      vm_compute. reflexivity.
    - intros j m Hj Hm. apply Hover. unfold prefixText. rewrite Hw.
      destruct j as [|[|j]]; [|apply Hreach; exact Hm | lia].
      right. apply trimmedBy_empty. }
  split.
  - apply H; reflexivity.
  - unfold clamp.
    replace (0 <? offsetHeight (_element Run.tallLine))%N with true
      by (vm_compute; reflexivity).
    change (useSoftClamp (unwatch Run.tallLine)) with false. cbv iota.
    rewrite H; reflexivity.
Qed.

(** C3 (defect in the code).  The specification tries the prefixes of length
    [0..N] and keeps the full text when none overflows.  The loop stops at
    [i < len], so the longest prefix tried has [N-1] words: for the words
    "ab" and "cd" in a box where "ab cd" overflows and "ab" fits, the guard
    is true, no prefix tried overflows, the character loop is not entered,
    both signals fire, and the element is left holding "ab". *)
Theorem hardClamp_drops_last_word (fuel : nat) :
  overflows Run.twoWords = true
  /\ (forall k, (k < length (originalWords Run.twoWords))%nat ->
        overflowsIn Run.twoWords
          (TextContent (Js.join " " (Js.sliceTo k (originalWords Run.twoWords))))
          (style (_element Run.twoWords)) = false)
  /\ Js.join " " (originalWords Run.twoWords) = "ab cd"
  /\ exists this',
       hardClamp fuel Run.twoWords = Some this'
       /\ content (_element this') = TextContent "ab"
       /\ emitted Run.twoWords this' = [Run.hard; Run.completed].
Proof.
  assert (forall k, (k < length (originalWords Run.twoWords))%nat ->
            overflowsIn Run.twoWords
              (TextContent (Js.join " " (Js.sliceTo k (originalWords Run.twoWords))))
              (style (_element Run.twoWords)) = false) as Hfit.
  { intros k Hk. change (length (originalWords Run.twoWords)) with 2%nat in Hk.
    destruct k as [|[|k]]; [vm_compute; reflexivity .. | lia]. }
  split; [vm_compute; reflexivity|]. split; [exact Hfit|].
  split; [vm_compute; reflexivity|].
  eexists. split.
  - apply hardClamp_all_fit; [vm_compute; reflexivity | discriminate | exact Hfit].
  - split; vm_compute; reflexivity.
Qed.

(** ** Soft clamp *)

(** C9.  With [minFontSize > maxFontSize] and overflow after the font-size
    reset, the font-size loop makes no round: no candidate size is applied,
    [done] stays false, the soft-clamp signal is dispatched and the call is
    [hardClamp()] on the element as the reset left it. *)
Theorem softClamp_empty_range (fuel : nat) (this : LineClamp) :
  minFontSize this > maxFontSize this ->
  overflows (fontReset this) = true ->
  shrinkFont (Z.to_nat (maxFontSize this - minFontSize this + 1)) (maxFontSize this)
    (settled (fontReset this))
  = (false, settled (fontReset this))
  /\ softClamp fuel this
     = hardClamp fuel (triggerEvent Run.soft (settled (fontReset this))).
Proof.
  intros Hrange Hov.
  assert (Z.to_nat (maxFontSize this - minFontSize this + 1) = O) as Hn by lia.
  split.
  - rewrite Hn. reflexivity.
  - unfold softClamp. fold (fontReset this). rewrite shouldClamp_eq, Hov.
    change (maxFontSize (settled (fontReset this))) with (maxFontSize this).
    change (minFontSize (settled (fontReset this))) with (minFontSize this).
    rewrite Hn. reflexivity.
Qed.

Lemma softClamp_empty_range_witness :
  shrinkFont (Z.to_nat (3 - 5 + 1)) 3 (settled (fontReset Run.emptyRange))
  = (false, settled (fontReset Run.emptyRange))
  /\ softClamp 10 Run.emptyRange
     = hardClamp 10 (triggerEvent Run.soft (settled (fontReset Run.emptyRange))).
Proof.
  apply (softClamp_empty_range 10 Run.emptyRange).
  - vm_compute. reflexivity.
  - vm_compute. reflexivity.
Defined.

(** ** Construction *)

Lemma splitFrom_nonempty (s : string) : forall inRun, Js.splitFrom inRun s <> [].
Proof.
  induction s as [|c r IH]; intros inRun; cbn; [discriminate|].
  destruct (Js.isWhiteSpace c).
  - destruct inRun; [apply IH | discriminate].
  - specialize (IH false). destruct (Js.splitFrom false r); [congruence | discriminate].
Qed.

Lemma splitFrom_trailing (c : ascii) (r : string) :
  Js.isWhiteSpace c = true ->
  forall inRun,
    last (Js.splitFrom inRun (r +:+ String c "")) = Some ""
    /\ (inRun = false -> (2 <= length (Js.splitFrom inRun (r +:+ String c "")))%nat).
Proof.
  intros Hc. induction r as [|a r IH]; intros inRun.
  - change ("" +:+ String c "") with (String c ""). cbn. rewrite Hc.
    destruct inRun; cbn; split; auto; discriminate.
  - change (String a r +:+ String c "") with (String a (r +:+ String c "")).
    cbn [Js.splitFrom]. destruct (Js.isWhiteSpace a).
    + destruct (IH true) as [Hlast _].
      pose proof (splitFrom_nonempty (r +:+ String c "") true) as Hne.
      destruct inRun; [split; [exact Hlast | discriminate]|].
      destruct (Js.splitFrom true (r +:+ String c "")) as [|w ws]; [congruence|].
      split; [exact Hlast | intros _; cbn; lia].
    + destruct (IH false) as [Hlast Hlen]. specialize (Hlen eq_refl).
      destruct (Js.splitFrom false (r +:+ String c "")) as [|w [|w' ws]];
        [cbn in Hlen; lia .. |].
      split; [exact Hlast | intros _; cbn; lia].
Qed.

(** C10.  [originalWords] is the text content split on white-space runs.  It
    is never empty: the empty text gives the single token [""], leading white
    space puts an empty token first and trailing white space an empty token
    last, so the list holds tokens that are not words. *)
Theorem originalWords_never_empty (element : Element) (options : LineClampInit) :
  let words := originalWords (construct element options) in
  words = Js.splitWhitespace (textContent element)
  /\ words <> []
  /\ (textContent element = "" -> words = [""])
  /\ (forall c r, textContent element = String c r -> Js.isWhiteSpace c = true ->
        head words = Some "" /\ (2 <= length words)%nat)
  /\ (forall r c, textContent element = r +:+ String c "" -> Js.isWhiteSpace c = true ->
        last words = Some "").
Proof.
  assert (originalWords (construct element options)
          = Js.splitWhitespace (textContent element)) as Hw.
  { unfold construct. destruct (initBasisLineHeight options); [reflexivity|].
    unfold currentLineHeight. destruct (textDimensions _) as [d this] eqn:Hd.
    unfold textDimensions, _whileMeasuring in Hd. cbn in Hd.
    injection Hd as _ <-. reflexivity. }
  cbv zeta. rewrite Hw. unfold Js.splitWhitespace.
  split; [reflexivity|]. split; [apply splitFrom_nonempty|].
  split; [intros ->; reflexivity|]. split.
  - intros c r -> Hc. cbn. rewrite Hc.
    pose proof (splitFrom_nonempty r true) as Hne.
    destruct (Js.splitFrom true r); [congruence|]. cbn. split; [reflexivity | lia].
  - intros r c -> Hc. apply (splitFrom_trailing c r Hc false).
Qed.

Lemma originalWords_never_empty_witness :
  originalWords (construct Run.padded noOptions) = [""; "ab"; "cd"; ""]
  /\ head (originalWords (construct Run.padded noOptions)) = Some ""
  /\ last (originalWords (construct Run.padded noOptions)) = Some "".
Proof.
  destruct (originalWords_never_empty Run.padded noOptions) as (Hw & _ & _ & Hhd & Hlast).
  split; [rewrite Hw; vm_compute; reflexivity|]. split.
  - apply (Hhd " "%char "ab cd "); reflexivity.
  - apply (Hlast " ab cd" " "%char); reflexivity.
Defined.

(** ** The entry point *)

Lemma rewatch (this : LineClamp) (el : Element) :
  (if Js.truthy (_watching this)
   then watchOnly (withElement el (settled (unwatch this)))
   else withElement el (settled (unwatch this)))
  = withElement el (settled this).
Proof.
  destruct this as [ws ob rs el0 w n soft str basis lo hi].
  destruct w as [[|]|]; reflexivity.
Qed.

Lemma clamp_cases (fuel : nat) (this this' : LineClamp) :
  clamp fuel this = Some this' ->
  let el := _element this in
  (visible this = false /\ this' = this)
  \/ (visible this = true /\ useSoftClamp this = true
      /\ overflows (fontReset this) = false
      /\ this' = withElement (withStyle (delete "font-size" (style el)) el)
                   (settled this))
  \/ (visible this = true /\ useSoftClamp this = true
      /\ overflows (fontReset this) = true
      /\ exists s,
          minFontSize this <= s <= maxFontSize this
          /\ overflowsAtSize this s = false
          /\ (forall s', s < s' <= maxFontSize this -> overflowsAtSize this s' = true)
          /\ this' = withElement
                       (mkElement (host el) (content el) (sized s (style el))
                          (dispatched el ++ [Run.soft; Run.completed]))
                       (settled this))
  \/ (visible this = true /\ useSoftClamp this = true
      /\ overflows (fontReset this) = true
      /\ (forall s, minFontSize this <= s <= maxFontSize this ->
            overflowsAtSize this s = true)
      /\ exists c st,
          this' = withElement
                    (mkElement (host el) c st
                       (dispatched el ++ [Run.soft; Run.hard; Run.completed]))
                    (settled this))
  \/ (visible this = true /\ useSoftClamp this = false
      /\ exists c,
          this' = withElement
                    (mkElement (host el) c (delete "min-height" (style el))
                       (dispatched el ++
                          if overflows this then [Run.hard; Run.completed] else []))
                    (settled this)).
Proof.
  intros H. cbv zeta. unfold clamp in H. fold (visible this) in H.
  destruct (visible this) eqn:Hvis.
  2:{ injection H as <-. left. split; reflexivity. }
  right. change (useSoftClamp (unwatch this)) with (useSoftClamp this) in H.
  destruct (useSoftClamp this) eqn:Hsoft.
  - destruct (softClamp fuel (unwatch this)) as [this1|] eqn:Hs; [|discriminate].
    cbn in H. injection H as <-. apply softClamp_spec in Hs.
    destruct Hs as [(Hov & ->) | [(Hov & s & Hs & Hfit & Habove & ->)
                                 | (Hov & Hall & c & st & ->)]].
    + left. split; [reflexivity|]. split; [reflexivity|]. split; [exact Hov|].
      apply (rewatch this).
    + right; left. split; [reflexivity|]. split; [reflexivity|]. split; [exact Hov|].
      exists s. split; [exact Hs|]. split; [exact Hfit|]. split; [exact Habove|].
      apply (rewatch this).
    + right; right; left. split; [reflexivity|]. split; [reflexivity|].
      split; [exact Hov|]. split; [exact Hall|].
      exists c, st. apply (rewatch this).
  - destruct (hardClamp fuel (unwatch this)) as [this1|] eqn:Hh; [|discriminate].
    cbn in H. injection H as <-. apply hardClamp_spec in Hh.
    destruct Hh as (c & ->).
    right; right; right. split; [reflexivity|]. split; [reflexivity|].
    exists c. apply (rewatch this).
Qed.

Lemma after_returns (fuel : nat) (this : LineClamp) :
  Run.returns fuel this = true -> clamp fuel this = Some (Run.after fuel this).
Proof.
  unfold Run.after, Run.returns. destruct (clamp fuel this); [reflexivity | discriminate].
Qed.

(** C7.  A call of [clamp()] that returns leaves the watching state as it
    found it: watching before, watching after, with observer and resize
    listener connected again on a visible element; not watching before, not
    watching after.  Resuming is [watch(false)], which subscribes without a
    clamp pass and does not touch the element, and a measurement preserves
    the watching state as well. *)
Theorem clamp_preserves_watching (fuel : nat) (this this' : LineClamp) :
  clamp fuel this = Some this' ->
  Js.truthy (_watching this') = Js.truthy (_watching this)
  /\ (visible this = true ->
      observing this' = Js.truthy (_watching this)
      /\ resizeListening this' = Js.truthy (_watching this))
  /\ (forall that, watch fuel false that = Some (watchOnly that)
                   /\ _element (watchOnly that) = _element that)
  /\ (forall that, Js.truthy (_watching (snd (shouldClamp that)))
                   = Js.truthy (_watching that)).
Proof.
  intros H. apply clamp_cases in H. cbv zeta in H.
  assert (forall el, Js.truthy (_watching (withElement el (settled this)))
                     = Js.truthy (_watching this)) as Hw.
  { intros el. destruct this as [ws ob rs el0 w n soft str basis lo hi].
    destruct w as [[|]|]; reflexivity. }
  split; [|split; [|split]].
  - destruct H as [(_ & ->) | [(_ & _ & _ & ->) | [(_ & _ & _ & s & _ & _ & _ & ->)
      | [(_ & _ & _ & _ & c & st & ->) | (_ & _ & c & ->)]]]];
      first [reflexivity | apply Hw].
  - intros Hvis.
    destruct H as [(Hinv & _) | [(_ & _ & _ & ->) | [(_ & _ & _ & s & _ & _ & _ & ->)
      | [(_ & _ & _ & _ & c & st & ->) | (_ & _ & c & ->)]]]];
      first [congruence | split; reflexivity].
  - intros that. split; [reflexivity|].
    unfold watchOnly. destruct (negb _); reflexivity.
  - intros that. rewrite shouldClamp_eq.
    destruct that as [ws ob rs el0 w n soft str basis lo hi].
    destruct w as [[|]|]; reflexivity.
Qed.

Lemma clamp_preserves_watching_witness :
  clamp 10 Run.cascadeWatched = Some (Run.after 10 Run.cascadeWatched)
  /\ Js.truthy (_watching (Run.after 10 Run.cascadeWatched)) = true
  /\ observing (Run.after 10 Run.cascadeWatched) = true
  /\ resizeListening (Run.after 10 Run.cascadeWatched) = true.
Proof.
  assert (clamp 10 Run.cascadeWatched = Some (Run.after 10 Run.cascadeWatched)) as H
    by (apply after_returns; vm_compute; reflexivity).
  destruct (clamp_preserves_watching 10 Run.cascadeWatched _ H) as (Hw & Hsub & _).
  destruct Hsub as [Hob Hrs]; [vm_compute; reflexivity|].
  split; [exact H|]. split; [exact Hw|]. split; [exact Hob | exact Hrs].
Defined.

Lemma clamp_invisible (fuel : nat) (this : LineClamp) :
  visible this = false -> clamp fuel this = Some this.
Proof. unfold clamp. fold (visible this). intros ->. reflexivity. Qed.

Lemma clamp_soft_fits (fuel : nat) (this : LineClamp) :
  visible this = true -> useSoftClamp this = true ->
  overflows (fontReset this) = false ->
  clamp fuel this
  = Some (withElement
            (withStyle (delete "font-size" (style (_element this))) (_element this))
            (settled this)).
Proof.
  intros Hvis Hsoft Hov. unfold clamp. fold (visible this). rewrite Hvis.
  change (useSoftClamp (unwatch this)) with (useSoftClamp this). rewrite Hsoft.
  unfold softClamp. rewrite shouldClamp_eq.
  change (overflows (onElement (setFontSize "") (unwatch this)))
    with (overflows (fontReset this)).
  rewrite Hov. cbn. f_equal. apply (rewatch this).
Qed.

Lemma clamp_hard_fits (fuel : nat) (this : LineClamp) :
  visible this = true -> useSoftClamp this = false ->
  overflows this = false ->
  clamp fuel this
  = Some (withElement
            (withStyle (delete "min-height" (style (_element this))) (_element this))
            (settled this)).
Proof.
  intros Hvis Hsoft Hov. unfold clamp. fold (visible this). rewrite Hvis.
  change (useSoftClamp (unwatch this)) with (useSoftClamp this). rewrite Hsoft.
  unfold hardClamp. rewrite shouldClamp_eq.
  change (overflows (unwatch this)) with (overflows this).
  rewrite Hov. cbn. f_equal. apply (rewatch this).
Qed.

(** C8, as amended.  When the overflow test the pass starts with is false
    (for soft clamp: the test made once the inline font size is cleared),
    [clamp()] returns, dispatches nothing and leaves the content alone; the
    only change to the inline style is the removal of [font-size] (soft
    clamp) or of [min-height] (hard clamp) on an element that has a height.
    A second call then changes nothing at all, for soft clamp always and for
    hard clamp when no inline [min-height] was there to remove. *)
Theorem clamp_noop_when_test_fits (fuel : nat) (this : LineClamp) :
  overflows (if useSoftClamp this then fontReset this else this) = false ->
  exists this',
    clamp fuel this = Some this'
    /\ content (_element this') = content (_element this)
    /\ dispatched (_element this') = dispatched (_element this)
    /\ style (_element this')
       = (if visible this
          then delete (if useSoftClamp this then "font-size" else "min-height")
                 (style (_element this))
          else style (_element this))
    /\ (useSoftClamp this = true \/ style (_element this) !! "min-height" = None ->
        clamp fuel this' = Some this').
Proof.
  intros Hov. destruct (visible this) eqn:Hvis.
  2:{ exists this. rewrite (clamp_invisible fuel this Hvis). repeat split; auto. }
  destruct (useSoftClamp this) eqn:Hsoft.
  - eexists. split; [apply clamp_soft_fits; assumption|].
    split; [reflexivity|]. split; [reflexivity|]. split; [reflexivity|]. intros _.
    match goal with |- clamp _ ?t = _ => destruct (visible t) eqn:Hvis' end.
    2:{ apply clamp_invisible. exact Hvis'. }
    rewrite clamp_soft_fits; [| exact Hvis' | exact Hsoft |].
    + cbn. rewrite delete_delete_eq. reflexivity.
    + unfold overflows, fontReset, onElement, setFontSize, withStyle in *. cbn in *.
      rewrite delete_delete_eq. exact Hov.
  - eexists. split; [apply clamp_hard_fits; assumption|].
    split; [reflexivity|]. split; [reflexivity|]. split; [reflexivity|].
    intros [Heq | Hnone]; [discriminate|].
    match goal with |- clamp _ ?t = _ => destruct (visible t) eqn:Hvis' end.
    2:{ apply clamp_invisible. exact Hvis'. }
    rewrite clamp_hard_fits; [| exact Hvis' | exact Hsoft |].
    + cbn. rewrite (delete_id _ _ Hnone). rewrite (delete_id _ _ Hnone). reflexivity.
    + unfold overflows in *. cbn. rewrite (delete_id _ _ Hnone). exact Hov.
Qed.

Lemma clamp_noop_when_test_fits_witness :
  exists this',
    clamp 10 Run.inlineSmall = Some this'
    /\ content (_element this') = TextContent "ab"
    /\ dispatched (_element this') = []
    /\ style (_element this') = delete "font-size" {["font-size" := "10px"]}
    /\ (useSoftClamp Run.inlineSmall = true
        \/ style (_element Run.inlineSmall) !! "min-height" = None ->
        clamp 10 this' = Some this').
Proof.
  apply (clamp_noop_when_test_fits 10 Run.inlineSmall).
  vm_compute. reflexivity.
Defined.

(** C8, as stated, fails.  [Run.shrunk] fits as it is and at [maxFontSize]
    (its inline font size is the 12 pixels an earlier pass left there), yet
    [clamp()] clears the font size, finds overflow at the style sheet's size,
    applies 12 pixels again and dispatches two signals.  [Run.inlineSmall]
    fits at every size, and [clamp()] removes its inline font size. *)
Lemma noOpWhenFitting_fails :
  ~ Stated.noOpWhenFitting 10 Run.shrunk /\ ~ Stated.noOpWhenFitting 10 Run.inlineSmall.
Proof.
  split; intros H.
  - destruct H as (this' & Hc & _ & _ & Hev); [vm_compute; reflexivity .. |].
    assert (dispatched (_element (Run.after 10 Run.shrunk)) = [Run.soft; Run.completed])
      as Hrun by (vm_compute; reflexivity).
    unfold Run.after in Hrun. rewrite Hc in Hrun.
    change (dispatched (_element this') = [Run.soft; Run.completed]) in Hrun.
    rewrite Hev in Hrun. vm_compute in Hrun. discriminate.
  - destruct H as (this' & Hc & Hst & _ & _); [vm_compute; reflexivity .. |].
    assert (style (_element (Run.after 10 Run.inlineSmall)) !! "font-size" = None)
      as Hrun by (vm_compute; reflexivity).
    unfold Run.after in Hrun. rewrite Hc in Hrun.
    change (style (_element this') !! "font-size" = None) in Hrun.
    rewrite Hst in Hrun. vm_compute in Hrun. discriminate.
Qed.




(** ** Signals *)

(** C4, as amended.  A pass that returns dispatches one of four sequences:
    nothing, when the element has no height or the overflow test the pass
    starts with is false (even if the pass cleared an inline font size or
    minimum height); soft-clamp then clamp-completed, when a font size fits,
    and the pass ends fitting; soft-clamp, hard-clamp then clamp-completed,
    when no font size of the range fits and soft clamp falls through to hard
    clamp; hard-clamp then clamp-completed, when soft clamp is off.  So the
    clamp-completed signal fires exactly once if and only if overflow was
    found at the start, and never more than once. *)
Theorem clamp_signals (fuel : nat) (this this' : LineClamp) :
  clamp fuel this = Some this' ->
  let start := if useSoftClamp this then fontReset this else this in
  let out := emitted this this' in
  dispatched (_element this') = dispatched (_element this) ++ out
  /\ ((out = [] /\ (visible this = false \/ overflows start = false))
      \/ (out = [Run.soft; Run.completed]
          /\ useSoftClamp this = true /\ overflows start = true
          /\ overflows this' = false)
      \/ (out = [Run.soft; Run.hard; Run.completed]
          /\ useSoftClamp this = true /\ overflows start = true
          /\ forall s, minFontSize this <= s <= maxFontSize this ->
               overflowsAtSize this s = true)
      \/ (out = [Run.hard; Run.completed]
          /\ useSoftClamp this = false /\ overflows start = true))
  /\ fired Run.completed this this'
     = (if visible this && overflows start then 1 else 0)%nat.
Proof.
  intros H. apply clamp_cases in H. cbv zeta in H. cbv zeta.
  unfold fired.
  destruct H as [(Hvis & ->) | [(Hvis & Hsoft & Hov & ->)
    | [(Hvis & Hsoft & Hov & s & _ & Hfit & _ & ->)
    | [(Hvis & Hsoft & Hov & Hall & c & st & ->) | (Hvis & Hsoft & c & ->)]]]];
    rewrite Hvis; try rewrite Hsoft; try rewrite Hov;
    unfold emitted; cbn [dispatched _element withElement withStyle].
  - rewrite drop_all, app_nil_r. split; [reflexivity|]. split; [|reflexivity].
    left. split; [reflexivity | left; reflexivity].
  - rewrite drop_all, app_nil_r. split; [reflexivity|]. split; [|reflexivity].
    left. split; [reflexivity | right; reflexivity].
  - rewrite drop_app_length. split; [reflexivity|]. split; [|reflexivity].
    right; left. repeat split. apply (fit_at_size this s _ Hov Hfit).
  - rewrite drop_app_length. split; [reflexivity|]. split; [|reflexivity].
    right; right; left. repeat split. exact Hall.
  - rewrite drop_app_length. split; [reflexivity|].
    destruct (overflows this) eqn:Hov; (split; [|reflexivity]).
    + right; right; right. repeat split.
    + left. split; [reflexivity | right; reflexivity].
Qed.

Lemma clamp_signals_witness :
  dispatched (_element (Run.after 10 Run.cascade))
  = [] ++ emitted Run.cascade (Run.after 10 Run.cascade)
  /\ emitted Run.cascade (Run.after 10 Run.cascade)
     = [Run.soft; Run.hard; Run.completed]
  /\ fired Run.completed Run.cascade (Run.after 10 Run.cascade) = 1%nat.
Proof.
  assert (clamp 10 Run.cascade = Some (Run.after 10 Run.cascade)) as H
    by (apply after_returns; vm_compute; reflexivity).
  destruct (clamp_signals 10 Run.cascade _ H) as (Hlog & _ & Hcount).
  split; [exact Hlog|]. split; [vm_compute; reflexivity | exact Hcount].
Defined.

(** C4, as stated, fails.  On [Run.cascade] the pass truncates the text and
    both the soft-clamp and the hard-clamp signal fire.  On [Run.inlineSmall]
    the pass changes the inline style and neither fires, although the pass
    ends fitting. *)
Lemma oneRemedySignal_fails :
  ~ Stated.oneRemedySignal 10 Run.cascade /\ ~ Stated.oneRemedySignal 10 Run.inlineSmall.
Proof.
  split; intros H.
  - destruct (H (Run.after 10 Run.cascade)) as [Hone _].
    + apply after_returns. vm_compute. reflexivity.
    + left. vm_compute. discriminate.
    + vm_compute in Hone. discriminate.
  - destruct (H (Run.after 10 Run.inlineSmall)) as [Hone _].
    + apply after_returns. vm_compute. reflexivity.
    + right. intros E.
      apply (f_equal (fun m : Style => m !! "font-size")) in E.
      vm_compute in E. discriminate.
    + vm_compute in Hone. discriminate.
Qed.

(** ** Watching *)

Lemma settled_consistent (this : LineClamp) (el : Element) :
  consistent (withElement el (settled this)).
Proof. split; reflexivity. Qed.

Lemma clamp_shape (fuel : nat) (this this' : LineClamp) :
  clamp fuel this = Some this' ->
  this' = this \/ exists el, host el = host (_element this)
                            /\ this' = withElement el (settled this).
Proof.
  intros H. apply clamp_cases in H. cbv zeta in H.
  destruct H as [(_ & ->) | [(_ & _ & _ & ->) | [(_ & _ & _ & s & _ & _ & _ & ->)
    | [(_ & _ & _ & _ & c & st & ->) | (_ & _ & c & ->)]]]];
    [left; reflexivity | right; eexists; split; [|reflexivity]; reflexivity ..].
Qed.

Lemma clamp_consistent (fuel : nat) (this this' : LineClamp) :
  consistent this -> clamp fuel this = Some this' -> consistent this'.
Proof.
  intros Hthis H. apply clamp_shape in H.
  destruct H as [-> | (el & _ & ->)]; [exact Hthis | apply settled_consistent].
Qed.

Lemma watchOnly_consistent (this : LineClamp) :
  consistent this -> consistent (watchOnly this).
Proof.
  intros Hthis. unfold watchOnly.
  destruct (negb _); [split; reflexivity | exact Hthis].
Qed.

(** X1.  The [_watching] flag and the two subscriptions agree: a new instance
    is consistent, [unwatch()] and a measurement always leave a consistent
    instance, and [watch()] and [clamp()] keep a consistent instance
    consistent. *)
Theorem subscriptions_follow_watching :
  (forall element options, consistent (construct element options))
  /\ (forall this, consistent (unwatch this))
  /\ (forall this, consistent (snd (shouldClamp this)))
  /\ (forall fuel this this',
        consistent this -> clamp fuel this = Some this' -> consistent this')
  /\ (forall fuel doInitialClamp this this',
        consistent this -> watch fuel doInitialClamp this = Some this' ->
        consistent this').
Proof.
  pose proof clamp_consistent as Hc. pose proof watchOnly_consistent as Hw.
  split; [|split; [|split; [|split]]].
  - intros element options. unfold construct.
    destruct (initBasisLineHeight options); [split; reflexivity|].
    unfold currentLineHeight. rewrite (surjective_pairing (textDimensions _)).
    unfold textDimensions, _whileMeasuring. cbn. split; reflexivity.
  - intros this. split; reflexivity.
  - intros this. rewrite shouldClamp_eq. split; reflexivity.
  - exact Hc.
  - intros fuel d this this' Hthis H. unfold watch in H.
    destruct d.
    + destruct (clamp fuel this) as [this1|] eqn:H1; [|discriminate].
      cbn in H. injection H as <-. apply Hw. exact (Hc _ _ _ Hthis H1).
    + cbn in H. injection H as <-. apply Hw. exact Hthis.
Qed.

Lemma subscriptions_follow_watching_witness :
  consistent (Run.after 10 More.watched).
Proof.
  destruct subscriptions_follow_watching as (_ & _ & _ & Hc & _).
  apply (Hc 10%nat More.watched).
  - split; reflexivity.
  - apply after_returns. vm_compute. reflexivity.
Defined.

(** X2.  On a consistent instance a [watch()] that returns leaves the
    instance watching with observer and resize listener connected, whether or
    not it clamped first; [unwatch()] after it leaves neither; and
    [watch(false)] on an instance that is already watching changes nothing. *)
Theorem watch_then_unwatch (fuel : nat) (doInitialClamp : bool)
    (this this' : LineClamp) :
  consistent this ->
  watch fuel doInitialClamp this = Some this' ->
  (_watching this', observing this', resizeListening this') = (Some true, true, true)
  /\ (_watching (unwatch this'), observing (unwatch this'),
      resizeListening (unwatch this')) = (Some false, false, false)
  /\ _element (unwatch this') = _element this'
  /\ (Js.truthy (_watching this) = true -> watch fuel false this = Some this).
Proof.
  intros Hthis H.
  assert (forall that, consistent that ->
            (_watching (watchOnly that), observing (watchOnly that),
             resizeListening (watchOnly that)) = (Some true, true, true)) as Hw.
  { intros that [Hob Hrs]. unfold watchOnly.
    destruct (_watching that) as [[|]|] eqn:Hwt; cbn; try reflexivity.
    rewrite Hwt, Hob, Hrs. reflexivity. }
  split; [|split; [reflexivity|split; [reflexivity|]]].
  - unfold watch in H. destruct doInitialClamp.
    + destruct (clamp fuel this) as [this1|] eqn:H1; [|discriminate].
      cbn in H. injection H as <-. apply Hw.
      exact (clamp_consistent _ _ _ Hthis H1).
    + cbn in H. injection H as <-. apply Hw. exact Hthis.
  - intros Ht. unfold watch, watchOnly. cbn. rewrite Ht. reflexivity.
Qed.

Lemma watch_then_unwatch_witness :
  (_watching (watchOnly (Run.after 10 Run.shrinkable)),
   observing (watchOnly (Run.after 10 Run.shrinkable)),
   resizeListening (watchOnly (Run.after 10 Run.shrinkable))) = (Some true, true, true).
Proof.
  assert (watch 10 true Run.shrinkable = Some (watchOnly (Run.after 10 Run.shrinkable)))
    as H.
  { unfold watch. rewrite (after_returns 10 Run.shrinkable); [reflexivity|].
    vm_compute. reflexivity. }
  apply (watch_then_unwatch 10 true Run.shrinkable _ ltac:(split; reflexivity) H).
Defined.

(** ** Measuring *)

(** X3.  Whatever the callback does to the inline style, [_whileMeasuring]
    puts the style it found back; content and events are those the callback
    leaves, the callback's value is returned, and the options are not
    touched. *)
Theorem whileMeasuring_restores_style {A} (callback : Element -> A * Element)
    (this : LineClamp) :
  let r := _whileMeasuring callback this in
  fst r = fst (callback (withStyle (style (_element this)) (_element this)))
  /\ style (_element (snd r)) = style (_element this)
  /\ content (_element (snd r))
     = content (snd (callback (withStyle (style (_element this)) (_element this))))
  /\ dispatched (_element (snd r))
     = dispatched (snd (callback (withStyle (style (_element this)) (_element this))))
  /\ Js.truthy (_watching (snd r)) = Js.truthy (_watching this).
Proof.
  unfold _whileMeasuring. cbn.
  change (setCssText _ (_element this))
    with (withStyle (style (_element this)) (_element this)).
  destruct (callback _) as [v el]. cbn.
  destruct this as [ws ob rs el0 w n soft str basis lo hi].
  destruct w as [[|]|]; cbn; repeat split; reflexivity.
Qed.

(** X4.  A measurement leaves no residue: on an instance whose [_watching]
    flag is assigned and agrees with its subscriptions, [textDimensions] and
    [shouldClamp()] return the very instance they were called on. *)
Theorem measurement_leaves_no_residue (this : LineClamp) (w : bool) :
  _watching this = Some w -> observing this = w -> resizeListening this = w ->
  snd (textDimensions this) = this /\ snd (shouldClamp this) = this.
Proof.
  intros Hw Hob Hrs.
  destruct this as [ws ob rs [h c s ev] w0 n soft str basis lo hi].
  cbn in Hw, Hob, Hrs. subst.
  unfold shouldClamp, textDimensions, _whileMeasuring. cbn.
  destruct w; cbn; split; reflexivity.
Qed.

Lemma measurement_leaves_no_residue_witness :
  snd (textDimensions More.watched) = More.watched
  /\ snd (shouldClamp More.watched) = More.watched.
Proof.
  apply (measurement_leaves_no_residue More.watched true); reflexivity.
Defined.

Lemma ofZ_not_negative (z : Z) :
  0 <= z ->
  match Js.ofZ z with
  | S754_zero s | S754_infinity s | S754_finite s _ _ => s = false
  | S754_nan => True
  end.
Proof.
  intros Hz. unfold Js.ofZ, binary_normalize.
  destruct z as [|m|m]; [reflexivity | | lia].
  unfold binary_round. destruct (shl_align _ _ _) as [mz ez].
  unfold binary_round_aux. destruct (shr_fexp _ _ _ _ _) as [mrs e'].
  destruct (shr_fexp _ _ _ _ _) as [mrs' e''].
  destruct (shr_m mrs'); [reflexivity | | exact I].
  destruct (Z.leb _ _); reflexivity.
Qed.

Lemma gt_zero_over (x : Js.Number) (n : nat) :
  Js.gt (Js.div (Js.ofN 0) x) (Js.ofNat n) = false.
Proof.
  pose proof (ofZ_not_negative (Z.of_nat n) ltac:(lia)) as Hn.
  unfold Js.gt, Js.ofNat. change (Js.ofN 0) with (S754_zero false).
  destruct (Js.ofZ (Z.of_nat n)) as [sn|sn| |sn mn en]; try subst sn;
    destruct x as [sx|sx| |sx mx ex]; reflexivity.
Qed.

(** X6.  An element without rendered height never overflows: the quotient is
    zero or, over a zero line height, not a number, and neither exceeds
    [maxLines]; this holds in both modes and for every basis line height. *)
Theorem zero_height_never_overflows (this : LineClamp) :
  offsetHeight (_element this) = 0%N ->
  fst (shouldClamp this) = false.
Proof.
  intros Hh. rewrite shouldClamp_eq. cbn [fst].
  unfold overflows, overflowsIn, overflowsWith. unfold offsetHeight in Hh.
  rewrite Hh. apply gt_zero_over.
Qed.

Lemma zero_height_never_overflows_witness : fst (shouldClamp More.blank) = false.
Proof.
  apply (zero_height_never_overflows More.blank). vm_compute. reflexivity.
Defined.

(** X7.  With [maxLines] zero and [strict] set, nothing overflows: the line
    height is a division by zero, infinite or not a number, and the quotient
    of the inner height by it never exceeds zero. *)
Theorem zero_lines_never_overflows (this : LineClamp) :
  maxLines this = 0%nat -> strict this = true ->
  fst (shouldClamp this) = false.
Proof.
  intros Hn Hs. rewrite shouldClamp_eq. cbn [fst].
  unfold overflows, overflowsIn, overflowsWith. rewrite Hn, Hs.
  change (Js.ofNat 0) with (S754_zero false).
  set (hc := layout _ (InnerHTML _) _). set (h := layout _ _ _).
  pose proof (ofZ_not_negative (Z.of_N hc) ltac:(lia)) as Hc.
  pose proof (ofZ_not_negative (Z.of_N h) ltac:(lia)) as Hh.
  unfold Js.ofN, Js.gt.
  destruct (Js.ofZ (Z.of_N hc)) as [sc|sc| |sc mc ec]; try subst sc;
    destruct (Js.ofZ (Z.of_N h)) as [sh|sh| |sh mh eh]; try subst sh; reflexivity.
Qed.

Lemma zero_lines_never_overflows_witness : fst (shouldClamp More.noLines) = false.
Proof. apply (zero_lines_never_overflows More.noLines); reflexivity. Defined.

(** ** What a pass keeps *)

(** X5.  A pass never changes the words, the options or the host, and it
    only adds to the events dispatched: those dispatched before the call are
    still there, in order, before the new ones. *)
Theorem clamp_keeps_settings (fuel : nat) (this this' : LineClamp) :
  clamp fuel this = Some this' ->
  sameSettings this this'
  /\ exists out, dispatched (_element this') = dispatched (_element this) ++ out.
Proof.
  intros H. apply clamp_cases in H. cbv zeta in H.
  destruct H as [(_ & ->) | [(_ & _ & _ & ->) | [(_ & _ & _ & s & _ & _ & _ & ->)
    | [(_ & _ & _ & _ & c & st & ->) | (_ & _ & c & ->)]]]];
    (split; [repeat split|]); cbn [dispatched _element withElement withStyle].
  - exists []. rewrite app_nil_r. reflexivity.
  - exists []. rewrite app_nil_r. reflexivity.
  - eexists. reflexivity.
  - eexists. reflexivity.
  - eexists. reflexivity.
Qed.

Lemma clamp_keeps_settings_witness :
  sameSettings Run.cascade (Run.after 10 Run.cascade)
  /\ exists out, dispatched (_element (Run.after 10 Run.cascade))
                 = dispatched (_element Run.cascade) ++ out.
Proof.
  apply (clamp_keeps_settings 10 Run.cascade).
  apply after_returns. vm_compute. reflexivity.
Defined.

(** ** More on hard clamp *)

Lemma string_app_assoc (a b c : string) : (a +:+ b) +:+ c = a +:+ (b +:+ c).
Proof.
  induction a as [|x a IH]; [reflexivity|].
  change (String x ((a +:+ b) +:+ c) = String x (a +:+ (b +:+ c))).
  rewrite IH. reflexivity.
Qed.

Lemma string_app_nil_r (a : string) : a +:+ "" = a.
Proof.
  induction a as [|x a IH]; [reflexivity|].
  change (String x (a +:+ "") = String x a). rewrite IH. reflexivity.
Qed.

Lemma dropLast_prefix (text : string) : exists rest, text = Js.dropLast text +:+ rest.
Proof.
  induction text as [|c r IH]; [exists ""; reflexivity|].
  destruct r as [|c' r'].
  - exists (String c ""). reflexivity.
  - destruct IH as (rest & IH). exists rest.
    change (Js.dropLast (String c (String c' r')))
      with (String c (Js.dropLast (String c' r'))).
    change (String c (String c' r') = String c (Js.dropLast (String c' r') +:+ rest)).
    rewrite <- IH. reflexivity.
Qed.

Lemma trimmedBy_prefix (m : nat) (text : string) :
  exists rest, text = trimmedBy m text +:+ rest.
Proof.
  induction m as [|m IH]; [exists ""; symmetry; apply string_app_nil_r|].
  destruct IH as (rest & IH).
  destruct (dropLast_prefix (trimmedBy m text)) as (rest' & Hd).
  exists (rest' +:+ rest).
  change (trimmedBy (S m) text) with (Js.dropLast (trimmedBy m text)).
  rewrite <- string_app_assoc, <- Hd. exact IH.
Qed.

Lemma join_firstn_prefix (ws : list string) :
  forall k, exists rest, Js.join " " ws = Js.join " " (Js.sliceTo k ws) +:+ rest.
Proof.
  unfold Js.join, Js.sliceTo.
  induction ws as [|x t IH]; intros k.
  - exists "". destruct k; reflexivity.
  - destruct k as [|k]; [eexists; reflexivity|].
    destruct t as [|y t'].
    + exists "". destruct k; cbn; rewrite string_app_nil_r; reflexivity.
    + destruct (IH k) as (rest & Hk). destruct k as [|k].
      * eexists. cbn. reflexivity.
      * exists rest.
        change (String.concat " " (x :: y :: t'))
          with (x +:+ " " +:+ String.concat " " (y :: t')).
        change (String.concat " " (firstn (S (S k)) (x :: y :: t')))
          with (x +:+ " " +:+ String.concat " " (firstn (S k) (y :: t'))).
        rewrite Hk, !string_app_assoc. reflexivity.
Qed.

Lemma prefixText_length (this : LineClamp) (k : nat) :
  (String.length (prefixText this k)
   <= String.length (Js.join " " (originalWords this)))%nat.
Proof.
  destruct (join_firstn_prefix (originalWords this) k) as (rest & ->).
  rewrite string_length_app. unfold prefixText. lia.
Qed.

Lemma trimCharacters_more (extra fuel : nat) (text : string) (this this' : LineClamp) :
  trimCharacters fuel text this = Some this' ->
  trimCharacters (extra + fuel) text this = Some this'.
Proof.
  intros H. induction extra as [|extra IH]; [exact H|].
  apply trimCharacters_mono in IH. exact IH.
Qed.

Lemma trimCharacters_result (fuel : nat) :
  forall (text : string) (this this' : LineClamp),
    trimCharacters fuel text this = Some this' ->
    exists m,
      (1 <= m <= fuel)%nat
      /\ this' = withElement
                   (withContent (InnerHTML (trimmedBy m text +:+ "&hellip;"))
                      (_element this))
                   (settled this)
      /\ ellipsisOverflows this (trimmedBy m text) = false
      /\ (forall j, (1 <= j < m)%nat ->
            ellipsisOverflows this (trimmedBy j text) = true).
Proof.
  induction fuel as [|fuel IH]; intros text this this' H; [discriminate|].
  cbn [trimCharacters] in H. rewrite shouldClamp_eq in H.
  change (overflows _) with (ellipsisOverflows this (trimmedBy 1 text)) in H.
  destruct (ellipsisOverflows this (trimmedBy 1 text)) eqn:Hov.
  - apply IH in H. destruct H as (m & Hm & -> & Hfit & Hbefore).
    exists (S m). unfold trimmedBy in *. rewrite Nat.iter_succ_r.
    split; [lia|]. split; [reflexivity|]. split; [exact Hfit|].
    intros j Hj. destruct j as [|[|j]]; [lia | exact Hov |].
    rewrite Nat.iter_succ_r. apply (Hbefore (S j)). lia.
  - injection H as <-. exists 1%nat.
    split; [lia|]. split; [reflexivity|]. split; [exact Hov | intros; lia].
Qed.

Lemma trimWords_result (fuel todo : nat) :
  forall (i : nat) (this this' : LineClamp),
    trimWords fuel todo i this = Some this' ->
    ((forall k, (i <= k < i + todo)%nat -> prefixOverflows this k = false)
     /\ ((todo = O /\ this' = this)
         \/ (todo <> O
             /\ this' = withElement
                          (withContent (TextContent (prefixText this (i + todo - 1)))
                             (_element this))
                          (settled this))))
    \/ (exists k,
          (i <= k < i + todo)%nat
          /\ prefixOverflows this k = true
          /\ (forall j, (i <= j < k)%nat -> prefixOverflows this j = false)
          /\ trimCharacters fuel (prefixText this k)
               (settled (onElement (setTextContent (prefixText this k)) this))
             = Some this').
Proof.
  induction todo as [|todo IH]; intros i this this' H.
  - injection H as <-. left. split; [intros; lia | left; split; reflexivity].
  - cbn [trimWords] in H. rewrite shouldClamp_eq in H.
    change (overflows _) with (prefixOverflows this i) in H.
    destruct (prefixOverflows this i) eqn:Hov.
    + right. exists i. split; [lia|]. split; [exact Hov|].
      split; [intros; lia | exact H].
    + apply IH in H.
      destruct H as [(Hfit & Hend) | (k & Hk & Hover & Hbefore & Hc)].
      * left. split.
        -- intros k Hk. destruct (Nat.eq_dec k i) as [->|Hne]; [exact Hov|].
           apply (Hfit k). lia.
        -- right. split; [congruence|].
           destruct Hend as [(-> & ->) | (Hne & ->)].
           ++ replace (i + 1 - 1)%nat with i by lia. reflexivity.
           ++ replace (S i + todo - 1)%nat with (i + S todo - 1)%nat by lia.
              reflexivity.
      * right. exists k. split; [lia|]. split; [exact Hover|]. split.
        -- intros j Hj. destruct (Nat.eq_dec j i) as [->|Hne]; [exact Hov|].
           apply (Hbefore j). lia.
        -- exact Hc.
Qed.

Lemma hardClamp_over (fuel : nat) (this this' : LineClamp) :
  overflows this = true ->
  hardClamp fuel this = Some this' ->
  exists this1,
    trimWords fuel (length (originalWords this)) 0 (settled this) = Some this1
    /\ this' = onElement (removeProperty "min-height")
                 (triggerEvent Run.completed (triggerEvent Run.hard this1)).
Proof.
  intros Hov. unfold hardClamp. rewrite shouldClamp_eq, Hov.
  change (originalWords (settled this)) with (originalWords this).
  destruct (trimWords _ _ _ _) as [this1|]; [|discriminate].
  cbn. intros H. injection H as <-. exists this1. split; reflexivity.
Qed.

Lemma hardClamp_fits (fuel : nat) (this : LineClamp) :
  overflows this = false ->
  hardClamp fuel this = Some (onElement (removeProperty "min-height") (settled this)).
Proof. intros Hov. unfold hardClamp. rewrite shouldClamp_eq, Hov. reflexivity. Qed.

Lemma afterHard_returns (fuel : nat) (this : LineClamp) :
  More.hardReturns fuel this = true ->
  hardClamp fuel this = Some (More.afterHard fuel this).
Proof.
  unfold More.afterHard, More.hardReturns.
  destruct (hardClamp fuel this); [reflexivity | discriminate].
Qed.

Lemma afterSoft_returns (fuel : nat) (this : LineClamp) :
  More.softReturns fuel this = true ->
  softClamp fuel this = Some (More.afterSoft fuel this).
Proof.
  unfold More.afterSoft, More.softReturns.
  destruct (softClamp fuel this); [reflexivity | discriminate].
Qed.

(** X8.  A [hardClamp()] that returns leaves the inline style as it was but
    for [min-height], which is gone; the font size in particular is not
    touched.  It dispatches the hard-clamp and clamp-completed signals, in
    that order and once each, exactly when its first overflow test was true,
    and with a false test it leaves the content alone. *)
Theorem hardClamp_frame (fuel : nat) (this this' : LineClamp) :
  hardClamp fuel this = Some this' ->
  style (_element this') = delete "min-height" (style (_element this))
  /\ style (_element this') !! "font-size" = style (_element this) !! "font-size"
  /\ style (_element this') !! "min-height" = None
  /\ dispatched (_element this')
     = dispatched (_element this)
       ++ (if overflows this then [Run.hard; Run.completed] else [])
  /\ (overflows this = false -> content (_element this') = content (_element this)).
Proof.
  intros H. pose proof (hardClamp_spec _ _ _ H) as (c & Hc).
  assert (style (_element this') = delete "min-height" (style (_element this))) as Hst
    by (rewrite Hc; reflexivity).
  split; [exact Hst|]. rewrite Hst.
  split; [apply lookup_delete_ne; discriminate|].
  split; [apply lookup_delete_eq|].
  split; [rewrite Hc; reflexivity|].
  intros Hov. rewrite (hardClamp_fits fuel this Hov) in H. injection H as <-.
  reflexivity.
Qed.

Lemma hardClamp_frame_witness :
  style (_element (More.afterHard 10 More.threeWords)) !! "min-height" = None
  /\ dispatched (_element (More.afterHard 10 More.threeWords))
     = [Run.hard; Run.completed].
Proof.
  assert (hardClamp 10 More.threeWords = Some (More.afterHard 10 More.threeWords)) as H
    by (apply afterHard_returns; vm_compute; reflexivity).
  destruct (hardClamp_frame 10 More.threeWords _ H) as (_ & _ & Hmin & Hev & _).
  split; [exact Hmin | exact Hev].
Defined.

(** X9.  With a true guard, [hardClamp()] keeps the words before the first
    prefix that overflows and trims that prefix by the least number of
    characters, at least one, for which the trimmed text followed by the
    ellipsis fits; when no prefix tried overflows it leaves the longest
    prefix tried, all the words but the last. *)
Theorem hardClamp_first_overflowing_prefix (fuel : nat) (this this' : LineClamp) :
  overflows this = true ->
  originalWords this <> [] ->
  hardClamp fuel this = Some this' ->
  ((forall k, (k < length (originalWords this))%nat -> prefixOverflows this k = false)
   /\ content (_element this')
      = TextContent (prefixText this (length (originalWords this) - 1)))
  \/ (exists k m,
        (k < length (originalWords this))%nat
        /\ prefixOverflows this k = true
        /\ (forall j, (j < k)%nat -> prefixOverflows this j = false)
        /\ (1 <= m)%nat
        /\ content (_element this')
           = InnerHTML (trimmedBy m (prefixText this k) +:+ "&hellip;")
        /\ ellipsisOverflows this (trimmedBy m (prefixText this k)) = false
        /\ (forall j, (1 <= j < m)%nat ->
              ellipsisOverflows this (trimmedBy j (prefixText this k)) = true)).
Proof.
  intros Hov Hne H.
  destruct (hardClamp_over _ _ _ Hov H) as (this1 & Hw & ->).
  apply trimWords_result in Hw.
  destruct Hw as [(Hfit & Hend) | (k & Hk & Hover & Hbefore & Hc)].
  - left. split; [intros k Hk; apply (Hfit k); lia|].
    destruct Hend as [(Hlen & _) | (_ & ->)].
    + destruct (originalWords this); [congruence | discriminate].
    + reflexivity.
  - right. apply trimCharacters_result in Hc.
    destruct Hc as (m & Hm & -> & Hfit & Hmin).
    exists k, m. split; [lia|]. split; [exact Hover|].
    split; [intros j Hj; apply (Hbefore j); lia|]. split; [lia|].
    split; [reflexivity|]. split; [exact Hfit | exact Hmin].
Qed.

Lemma hardClamp_first_overflowing_prefix_witness :
  content (_element (More.afterHard 10 More.threeWords)) = InnerHTML "ab &hellip;"
  /\ prefixText More.threeWords 2 = "ab cd"
  /\ prefixOverflows More.threeWords 2 = true.
Proof.
  assert (hardClamp 10 More.threeWords = Some (More.afterHard 10 More.threeWords)) as H
    by (apply afterHard_returns; vm_compute; reflexivity).
  destruct (hardClamp_first_overflowing_prefix 10 More.threeWords _
              ltac:(vm_compute; reflexivity) ltac:(discriminate) H)
    as [(Hfit & _) | _].
  - specialize (Hfit 2%nat ltac:(vm_compute; lia)). vm_compute in Hfit. discriminate.
  - repeat split; vm_compute; reflexivity.
Defined.

(** X10.  The text [hardClamp()] leaves after a true guard is a prefix of the
    original words joined by single spaces, alone or followed by the
    ellipsis, and it fits under the inline style the loops ran with. *)
Theorem hardClamp_keeps_a_prefix (fuel : nat) (this this' : LineClamp) :
  overflows this = true ->
  originalWords this <> [] ->
  hardClamp fuel this = Some this' ->
  exists text rest,
    (content (_element this') = TextContent text
     \/ content (_element this') = InnerHTML (text +:+ "&hellip;"))
    /\ Js.join " " (originalWords this) = text +:+ rest
    /\ overflowsIn this (content (_element this')) (style (_element this)) = false.
Proof.
  intros Hov Hne H.
  destruct (hardClamp_over _ _ _ Hov H) as (this1 & Hw & ->).
  apply trimWords_result in Hw.
  destruct Hw as [(Hfit & Hend) | (k & Hk & Hover & Hbefore & Hc)].
  - destruct Hend as [(Hlen & _) | (Hlen & ->)].
    { destruct (originalWords this); [congruence | discriminate]. }
    destruct (join_firstn_prefix (originalWords this)
                (0 + length (originalWords this) - 1)) as (rest & Hrest).
    eexists _, rest. split; [left; reflexivity|]. split; [exact Hrest|].
    apply (Hfit (0 + length (originalWords this) - 1)%nat). lia.
  - apply trimCharacters_result in Hc.
    destruct Hc as (m & Hm & -> & Hfit & _).
    destruct (join_firstn_prefix (originalWords this) k) as (rest & Hrest).
    destruct (trimmedBy_prefix m (prefixText this k)) as (rest' & Htrim).
    exists (trimmedBy m (prefixText this k)), (rest' +:+ rest).
    split; [right; reflexivity|]. split; [|exact Hfit].
    rewrite <- string_app_assoc. rewrite <- Htrim. exact Hrest.
Qed.

Lemma hardClamp_keeps_a_prefix_witness :
  exists text rest,
    (content (_element (More.afterHard 10 More.threeWords)) = TextContent text
     \/ content (_element (More.afterHard 10 More.threeWords))
        = InnerHTML (text +:+ "&hellip;"))
    /\ Js.join " " (originalWords More.threeWords) = text +:+ rest
    /\ overflowsIn More.threeWords
         (content (_element (More.afterHard 10 More.threeWords)))
         (style (_element More.threeWords)) = false.
Proof.
  apply (hardClamp_keeps_a_prefix 10 More.threeWords).
  - vm_compute. reflexivity.
  - discriminate.
  - apply afterHard_returns. vm_compute. reflexivity.
Defined.

Lemma trimWords_terminates (fuel todo : nat) :
  forall (i : nat) (this : LineClamp),
    ellipsisOverflows this "" = false ->
    (String.length (Js.join " " (originalWords this)) < fuel)%nat ->
    is_Some (trimWords fuel todo i this).
Proof.
  induction todo as [|todo IH]; intros i this Hfit Hfuel; [eexists; reflexivity|].
  cbn [trimWords]. rewrite shouldClamp_eq.
  destruct (overflows _).
  - pose proof (prefixText_length this i) as Hlen. unfold prefixText in Hlen.
    set (text := Js.join " " (Js.sliceTo i (originalWords this))) in *.
    destruct (trimCharacters_terminates (String.length text) text
                (settled (onElement (setTextContent text) this)) Hfit (le_n _))
      as (r & Hr).
    exists r.
    replace fuel with ((fuel - S (String.length text)) + S (String.length text))%nat
      by lia.
    apply trimCharacters_more. exact Hr.
  - apply IH; [exact Hfit | exact Hfuel].
Qed.

(** X11.  Hard clamp does return when the ellipsis alone fits: as many rounds
    as the joined words have characters, and one more, are enough for
    [hardClamp()], and for [clamp()] when soft clamp is off. *)
Theorem hardClamp_terminates (fuel : nat) (this : LineClamp) :
  ellipsisOverflows this "" = false ->
  (String.length (Js.join " " (originalWords this)) < fuel)%nat ->
  is_Some (hardClamp fuel this)
  /\ (useSoftClamp this = false -> is_Some (clamp fuel this)).
Proof.
  intros Hfit Hfuel.
  assert (forall that, _element that = _element this ->
            originalWords that = originalWords this ->
            (maxLines that, strict that, basisLineHeight that)
            = (maxLines this, strict this, basisLineHeight this) ->
            is_Some (hardClamp fuel that)) as Hany.
  { intros that Hel Hw Hcfg. injection Hcfg as Hn Hs Hb.
    unfold hardClamp. rewrite shouldClamp_eq.
    destruct (overflows that); [|eexists; reflexivity].
    destruct (trimWords_terminates fuel (length (originalWords (settled that))) 0
                (settled that)) as (r & Hr).
    - unfold ellipsisOverflows, overflowsIn in *. cbn.
      rewrite Hel, Hn, Hs, Hb. exact Hfit.
    - cbn. rewrite Hw. exact Hfuel.
    - rewrite Hr. eexists. reflexivity. }
  split; [apply Hany; reflexivity|].
  intros Hsoft. unfold clamp.
  destruct (0 <? offsetHeight (_element this))%N; [|eexists; reflexivity].
  change (useSoftClamp (unwatch this)) with (useSoftClamp this). rewrite Hsoft.
  destruct (Hany (unwatch this)) as (r & Hr); [reflexivity .. |].
  rewrite Hr. eexists. reflexivity.
Qed.

Lemma hardClamp_terminates_witness :
  is_Some (hardClamp 9 More.threeWords)
  /\ (useSoftClamp More.threeWords = false -> is_Some (clamp 9 More.threeWords)).
Proof.
  apply (hardClamp_terminates 9 More.threeWords).
  - vm_compute. reflexivity.
  - vm_compute. lia.
Defined.

(** ** More on soft clamp *)

(** X12.  Soft clamp never leaves a font size outside the range: after a
    [softClamp()] that returns, the element has no inline font size or one
    of [s] pixels with [minFontSize <= s <= maxFontSize]. *)
Theorem softClamp_stays_in_range (fuel : nat) (this this' : LineClamp) :
  softClamp fuel this = Some this' ->
  style (_element this') !! "font-size" = None
  \/ exists s, minFontSize this <= s <= maxFontSize this
       /\ style (_element this') !! "font-size" = Some (pretty s +:+ "px").
Proof.
  intros H. pose proof (softClamp_spec _ _ _ H) as Hcases.
  destruct Hcases as [(_ & ->) | [(_ & s & Hs & _ & _ & ->) | (Hov & Hall & _)]].
  - left. apply lookup_delete_eq.
  - right. exists s. split; [exact Hs | apply lookup_insert_eq].
  - rewrite (softClamp_exhausted fuel this Hov Hall) in H.
    apply hardClamp_spec in H. destruct H as (c & ->).
    cbn [style _element withElement].
    rewrite lookup_delete_ne by discriminate.
    destruct (minFontSize this <=? maxFontSize this)%Z eqn:Hlo;
      destruct (0 <=? maxFontSize this)%Z eqn:Hpos; cbn [andb];
      try (left; apply lookup_delete_eq).
    right. exists (Z.max (minFontSize this) 0). apply Z.leb_le in Hlo, Hpos.
    split; [lia | apply lookup_insert_eq].
Qed.

Lemma softClamp_stays_in_range_witness :
  style (_element (More.afterSoft 10 Run.cascade)) !! "font-size" = None
  \/ exists s, 19 <= s <= 20
       /\ style (_element (More.afterSoft 10 Run.cascade)) !! "font-size"
          = Some (pretty s +:+ "px").
Proof.
  apply (softClamp_stays_in_range 10 Run.cascade).
  apply afterSoft_returns. vm_compute. reflexivity.
Defined.

(** X13.  When the range is not empty, its sizes are font sizes (none is
    negative, none exceeds 2^53) and none of them fits, soft clamp hands over
    to hard clamp with the font size left at [minFontSize]: the call is
    [hardClamp()] on the element at that size, after the soft-clamp
    signal. *)
Theorem softClamp_hands_over_at_minimum (fuel : nat) (this : LineClamp) :
  overflows (fontReset this) = true ->
  0 <= minFontSize this ->
  minFontSize this <= maxFontSize this ->
  maxFontSize this <= 2 ^ 53 ->
  (forall s, minFontSize this <= s <= maxFontSize this ->
     overflowsAtSize this s = true) ->
  softClamp fuel this
  = hardClamp fuel
      (triggerEvent Run.soft
         (withElement
            (withStyle (sized (minFontSize this) (style (_element this)))
               (_element this))
            (settled this))).
Proof.
  intros Hov Hmin Hrange Hmax Hall. rewrite (softClamp_exhausted fuel this Hov Hall).
  replace (minFontSize this <=? maxFontSize this)%Z with true
    by (symmetry; apply Z.leb_le; exact Hrange).
  replace (0 <=? maxFontSize this)%Z with true by (symmetry; apply Z.leb_le; lia).
  replace (Z.max (minFontSize this) 0) with (minFontSize this) by lia.
  reflexivity.
Qed.

Lemma softClamp_hands_over_at_minimum_witness :
  softClamp 10 Run.cascade
  = hardClamp 10
      (triggerEvent Run.soft
         (withElement
            (withStyle (sized 19 (style (_element Run.cascade))) (_element Run.cascade))
            (settled Run.cascade))).
Proof.
  apply (softClamp_hands_over_at_minimum 10 Run.cascade).
  - vm_compute. reflexivity.
  - vm_compute. discriminate.
  - vm_compute. discriminate.
  - vm_compute. discriminate.
  - intros s Hs. change (minFontSize Run.cascade) with 19 in Hs.
    change (maxFontSize Run.cascade) with 20 in Hs.
    assert (s = 19 \/ s = 20) as [-> | ->] by lia; vm_compute; reflexivity.
Defined.



(** ** The words *)

Lemma splitFrom_word_start (c : ascii) (r : string) (inRun : bool) :
  Js.isWhiteSpace c = false ->
  Js.splitFrom inRun (String c r) = Js.consHead c (Js.splitFrom false r).
Proof. intros Hc. cbn [Js.splitFrom]. rewrite Hc. reflexivity. Qed.

Lemma splitFrom_word (w s : string) :
  noWhiteSpace w = true ->
  Js.splitFrom false (w +:+ s) = prependHead w (Js.splitFrom false s).
Proof.
  induction w as [|c w IH]; intros Hw.
  - change ("" +:+ s) with s.
    pose proof (splitFrom_nonempty s false) as Hne.
    destruct (Js.splitFrom false s); [congruence | reflexivity].
  - cbn [noWhiteSpace] in Hw. apply andb_true_iff in Hw. destruct Hw as [Hc Hw].
    apply negb_true_iff in Hc.
    change (String c w +:+ s) with (String c (w +:+ s)).
    rewrite (splitFrom_word_start c _ false Hc), (IH Hw).
    pose proof (splitFrom_nonempty s false) as Hne.
    destruct (Js.splitFrom false s); [congruence | reflexivity].
Qed.

Lemma splitFrom_tokens (s : string) :
  forall inRun,
    Forall (fun w => noWhiteSpace w = true) (Js.splitFrom inRun s)
    /\ Forall (fun w => w <> "") (removelast (tail (Js.splitFrom inRun s)))
    /\ (inRun = true ->
        Js.splitFrom inRun s = [""]
        \/ exists w t, Js.splitFrom inRun s = w :: t /\ w <> "").
Proof.
  induction s as [|c r IH]; intros inRun.
  - cbn. split; [repeat constructor|]. split; [constructor | intros _; left; reflexivity].
  - cbn [Js.splitFrom]. destruct (Js.isWhiteSpace c) eqn:Hc.
    + destruct (IH true) as (Hws & Hmid & Hhead). specialize (Hhead eq_refl).
      destruct inRun; [split; [exact Hws|]; split; [exact Hmid | intros _; exact Hhead]|].
      split; [constructor; [reflexivity | exact Hws]|].
      split; [|discriminate].
      cbn [tail]. destruct Hhead as [-> | (w & t & Heq & Hw)]; [constructor|].
      rewrite Heq in *. cbn [tail] in Hmid.
      destruct t as [|w' t']; [constructor|].
      change (removelast (w :: w' :: t')) with (w :: removelast (w' :: t')).
      constructor; [exact Hw | exact Hmid].
    + destruct (IH false) as (Hws & Hmid & _).
      pose proof (splitFrom_nonempty r false) as Hne.
      destruct (Js.splitFrom false r) as [|w t]; [congruence|].
      cbn [Js.consHead]. split.
      * inversion Hws as [|? ? Hw Ht]; subst. constructor; [|exact Ht].
        cbn [noWhiteSpace]. rewrite Hc, Hw. reflexivity.
      * split; [exact Hmid|]. intros _. right. exists (String c w), t.
        split; [reflexivity | discriminate].
Qed.

Lemma originalWords_split (element : Element) (options : LineClampInit) :
  originalWords (construct element options) = Js.splitWhitespace (textContent element)
  /\ originalWords (construct element options) <> [].
Proof.
  assert (originalWords (construct element options)
          = Js.splitWhitespace (textContent element)) as Hw.
  { unfold construct. destruct (initBasisLineHeight options); [reflexivity|].
    unfold currentLineHeight. rewrite (surjective_pairing (textDimensions _)).
    reflexivity. }
  split; [exact Hw|]. rewrite Hw. apply splitFrom_nonempty.
Qed.

Lemma originalWords_are_words_aux (element : Element) (options : LineClampInit) :
  originalWords (construct element options) <> []
  /\ Forall (fun w => noWhiteSpace w = true) (originalWords (construct element options))
  /\ Forall (fun w => w <> "")
       (removelast (tail (originalWords (construct element options)))).
Proof.
  destruct (originalWords_split element options) as [Hw Hne].
  split; [exact Hne|]. rewrite Hw.
  destruct (splitFrom_tokens (textContent element) false) as (Hws & Hmid & _).
  split; [exact Hws | exact Hmid].
Qed.

(** X15.  A token of [originalWords] holds no white space, and only the first
    and the last token can be empty: every token between them is a word. *)
Theorem originalWords_are_words (element : Element) (options : LineClampInit) :
  Forall (fun w => noWhiteSpace w = true) (originalWords (construct element options))
  /\ Forall (fun w => w <> "")
       (removelast (tail (originalWords (construct element options)))).
Proof.
  destruct (originalWords_split element options) as [-> _].
  destruct (splitFrom_tokens (textContent element) false) as (Hws & Hmid & _).
  split; [exact Hws | exact Hmid].
Qed.

Lemma join_cons (w : string) (t : list string) :
  Js.join " " (w :: t)
  = w +:+ match t with [] => "" | _ :: _ => " " +:+ Js.join " " t end.
Proof.
  destruct t as [|w' t']; [symmetry; apply string_app_nil_r | reflexivity].
Qed.

Lemma split_join (ws : list string) :
  ws <> [] ->
  Forall (fun w => noWhiteSpace w = true) ws ->
  Forall (fun w => w <> "") (removelast (tail ws)) ->
  Js.splitFrom false (Js.join " " ws) = ws.
Proof.
  induction ws as [|w t IH]; intros Hne Hws Hmid; [congruence|].
  inversion Hws as [|? ? Hw Ht]; subst.
  rewrite join_cons, (splitFrom_word _ _ Hw).
  destruct t as [|w2 t'].
  - cbn. rewrite string_app_nil_r. reflexivity.
  - change (Js.splitFrom false (" " +:+ Js.join " " (w2 :: t')))
      with ("" :: Js.splitFrom true (Js.join " " (w2 :: t'))).
    cbn [prependHead]. rewrite string_app_nil_r. f_equal.
    cbn [tail] in Hmid.
    assert (Forall (fun w => w <> "") (removelast (tail (w2 :: t')))) as Hmid'.
    { cbn [tail]. destruct t' as [|w3 t'']; [constructor|].
      change (removelast (w2 :: w3 :: t'')) with (w2 :: removelast (w3 :: t'')) in Hmid.
      inversion Hmid; assumption. }
    specialize (IH ltac:(discriminate) Ht Hmid').
    destruct w2 as [|c r].
    + destruct t' as [|w3 t'']; [reflexivity|].
      change (removelast ("" :: w3 :: t'')) with ("" :: removelast (w3 :: t'')) in Hmid.
      inversion Hmid; congruence.
    + inversion Ht as [|? ? Hw2 _]; subst.
      cbn [noWhiteSpace] in Hw2. apply andb_true_iff in Hw2.
      destruct Hw2 as [Hc _]. apply negb_true_iff in Hc.
      rewrite join_cons in *.
      change (String c r +:+ ?x) with (String c (r +:+ x)) in *.
      rewrite (splitFrom_word_start c _ true Hc).
      rewrite (splitFrom_word_start c _ false Hc) in IH. exact IH.
Qed.

(** X16.  Splitting and joining round-trip on the words: an instance built
    on an element whose text is the [originalWords] of another instance
    joined by single spaces, the full text hard clamp works from, has the
    same [originalWords]. *)
Theorem originalWords_round_trip (element element' : Element)
    (options options' : LineClampInit) :
  textContent element'
  = Js.join " " (originalWords (construct element options)) ->
  originalWords (construct element' options')
  = originalWords (construct element options).
Proof.
  intros Htext.
  destruct (originalWords_split element' options') as [-> _]. rewrite Htext.
  destruct (originalWords_are_words_aux element options) as (Hne & Hws & Hmid).
  unfold Js.splitWhitespace at 1. apply split_join; assumption.
Qed.

Lemma originalWords_round_trip_witness :
  originalWords (construct More.rejoined More.someOptions)
  = originalWords (construct Run.padded noOptions).
Proof.
  apply (originalWords_round_trip Run.padded More.rejoined noOptions More.someOptions).
  reflexivity.
Defined.

(** ** More on construction *)

(** X17.  Construction leaves the element as it found it and subscribes to
    nothing.  Absent options take the defaults 1, true, true and 1; an absent
    [maxFontSize] is the computed font size; an absent [basisLineHeight] is
    the height of the calibration fragment for the resolved [maxLines],
    divided by it.  [_watching] is assigned, to false, only when that
    measurement ran. *)
Theorem construct_resolves (element : Element) (options : LineClampInit) :
  let this := construct element options in
  let n := default 1%nat (initMaxLines options) in
  _element this = element
  /\ (observing this, resizeListening this) = (false, false)
  /\ _watching this
     = match initBasisLineHeight options with None => Some false | Some _ => None end
  /\ (maxLines this, useSoftClamp this, strict this, minFontSize this)
     = (n, default true (initUseSoftClamp options),
        default true (initStrict options), default 1 (initMinFontSize options))
  /\ maxFontSize this
     = default (computedFontSize (host element) (style element))
         (initMaxFontSize options)
  /\ basisLineHeight this
     = default
         (Js.div
            (Js.ofN (layout (host element)
                       (InnerHTML ("&nbsp;" +:+ Js.repeat "<br>" n)) (style element)))
            (Js.ofNat n))
         (initBasisLineHeight options).
Proof.
  destruct element as [h c s ev]. unfold construct.
  destruct (initBasisLineHeight options) as [basis|].
  - cbn. repeat split.
  - unfold currentLineHeight, textDimensions, _whileMeasuring. cbn. repeat split.
Qed.
